(** * Manifest-based file synchronisation of the launcher

    A shallow embedding of [calculate_fast_hash] (both copies, in
    [main.py] and [files_report.py]), of the manifest loader and planner
    ([Downloader.load_manifest], [Downloader.check_files]) and of the
    transfer loop ([Downloader.add_download], [Downloader.process_queue]),
    followed by the properties of the synchronisation engine. *)

From Stdlib Require Import ZArith NArith Lia Bool.
From Stdlib Require Import Strings.String Strings.Ascii Strings.Byte.
From Stdlib Require Import Numbers.DecimalString.
From stdpp Require Import base tactics option list strings gmap fin_maps.

Set Warnings "-register-all".
Open Scope Z_scope.

(** ** BLAKE2b (RFC 7693), the hash behind [hashlib.blake2b]

    Words are 64-bit unsigned integers, carried as [Z] with the reduction
    modulo [2^64] written out. *)
Module Blake2b.

Definition w64 (x : Z) : Z := x mod 2 ^ 64.

Definition add64 (x y : Z) : Z := w64 (x + y).

Definition rotr64 (x : Z) (n : Z) : Z :=
  Z.lor (Z.shiftr x n) (w64 (Z.shiftl x (64 - n))).

Definition IV : list Z :=
  [ 0x6a09e667f3bcc908; 0xbb67ae8584caa73b; 0x3c6ef372fe94f82b;
    0xa54ff53a5f1d36f1; 0x510e527fade682d1; 0x9b05688c2b3e6c1f;
    0x1f83d9abfb41bd6b; 0x5be0cd19137e2179 ].

Definition SIGMA : list (list nat) :=
  ([ [0; 1; 2; 3; 4; 5; 6; 7; 8; 9; 10; 11; 12; 13; 14; 15];
    [14; 10; 4; 8; 9; 15; 13; 6; 1; 12; 0; 2; 11; 7; 5; 3];
    [11; 8; 12; 0; 5; 2; 15; 13; 10; 14; 3; 6; 7; 1; 9; 4];
    [7; 9; 3; 1; 13; 12; 11; 14; 2; 6; 5; 10; 4; 0; 15; 8];
    [9; 0; 5; 7; 2; 4; 10; 15; 14; 1; 11; 12; 6; 8; 3; 13];
    [2; 12; 6; 10; 0; 11; 8; 3; 4; 13; 7; 5; 15; 14; 1; 9];
    [12; 5; 1; 15; 14; 13; 4; 10; 0; 7; 6; 3; 9; 2; 8; 11];
    [13; 11; 7; 14; 12; 1; 3; 9; 5; 0; 15; 4; 8; 6; 2; 10];
    [6; 15; 14; 9; 11; 3; 0; 8; 12; 2; 13; 7; 1; 4; 10; 5];
    [10; 2; 8; 4; 7; 6; 1; 5; 15; 11; 9; 14; 3; 12; 13; 0] ])%nat.

Definition word (v : list Z) (i : nat) : Z := nth i v 0.

(** The mixing function G on the work vector. *)
Definition G (v : list Z) (a b c d : nat) (x y : Z) : list Z :=
  let va := add64 (add64 (word v a) (word v b)) x in
  let vd := rotr64 (Z.lxor (word v d) va) 32 in
  let vc := add64 (word v c) vd in
  let vb := rotr64 (Z.lxor (word v b) vc) 24 in
  let va := add64 (add64 va vb) y in
  let vd := rotr64 (Z.lxor vd va) 16 in
  let vc := add64 vc vd in
  let vb := rotr64 (Z.lxor vb vc) 63 in
  <[d := vd]> (<[c := vc]> (<[b := vb]> (<[a := va]> v))).

Definition round (m : list Z) (v : list Z) (r : nat) : list Z :=
  let s := nth (r mod 10)%nat SIGMA [] in
  let mw i := word m (nth i s 0%nat) in
  let v := G v 0 4 8 12 (mw 0%nat) (mw 1%nat) in
  let v := G v 1 5 9 13 (mw 2%nat) (mw 3%nat) in
  let v := G v 2 6 10 14 (mw 4%nat) (mw 5%nat) in
  let v := G v 3 7 11 15 (mw 6%nat) (mw 7%nat) in
  let v := G v 0 5 10 15 (mw 8%nat) (mw 9%nat) in
  let v := G v 1 6 11 12 (mw 10%nat) (mw 11%nat) in
  let v := G v 2 7 8 13 (mw 12%nat) (mw 13%nat) in
  G v 3 4 9 14 (mw 14%nat) (mw 15%nat).

(** The compression function F: chaining value [h], message block [m]
    (sixteen words), byte counter [t], final-block flag [f]. *)
Definition F (h : list Z) (m : list Z) (t : Z) (f : bool) : list Z :=
  let v := h ++ IV in
  let v := <[12%nat := Z.lxor (word v 12) (w64 t)]> v in
  let v := <[13%nat := Z.lxor (word v 13) (w64 (Z.shiftr t 64))]> v in
  let v := if f then <[14%nat := Z.lxor (word v 14) (2 ^ 64 - 1)]> v else v in
  let v := fold_left (round m) (seq 0 12) v in
  map (fun i => Z.lxor (Z.lxor (word h i) (word v i)) (word v (i + 8)))
      (seq 0 8).

Definition byteZ (b : byte) : Z := Z.of_N (Byte.to_N b).

Fixpoint le_word (bs : list byte) : Z :=
  match bs with
  | [] => 0
  | b :: bs => byteZ b + 256 * le_word bs
  end.

Fixpoint words_of (n : nat) (bs : list byte) : list Z :=
  match n with
  | O => []
  | S n => le_word (firstn 8 bs) :: words_of n (skipn 8 bs)
  end.

Definition block_words (bs : list byte) : list Z := words_of 16 bs.

Definition Zbyte (z : Z) : byte :=
  match Byte.of_N (Z.to_N (z mod 256)) with
  | Some b => b
  | None => x00
  end.

Definition word_bytes (w : Z) : list byte :=
  map (fun i => Zbyte (Z.shiftr w (8 * Z.of_nat i))) (seq 0 8).

(** Absorb the data block by block; the last block (also when the data is
    empty) is compressed with the final flag and the total length. *)
Fixpoint absorb (fuel : nat) (h : list Z) (t : Z) (data : list byte) : list Z :=
  match fuel with
  | O => F h (block_words data) (t + Z.of_nat (length data)) true
  | S fuel =>
      if (length data <=? 128)%nat
      then F h (block_words data) (t + Z.of_nat (length data)) true
      else absorb fuel (F h (block_words (firstn 128 data)) (t + 128) false)
                  (t + 128) (skipn 128 data)
  end.

(** Unkeyed BLAKE2b with an [nn]-byte digest. *)
Definition blake2b (nn : nat) (data : list byte) : list byte :=
  let h0 := <[0%nat := Z.lxor (word IV 0) (Z.lxor 0x01010000 (Z.of_nat nn))]> IV in
  let h := absorb (length data / 128) h0 0 data in
  firstn nn (concat (map word_bytes h)).

Definition hex_digit (n : N) : ascii :=
  nth (N.to_nat n)
      (list_ascii_of_string "0123456789abcdef") "0"%char.

Definition hex_byte (b : byte) : string :=
  String (hex_digit (Byte.to_N b / 16)) (String (hex_digit (Byte.to_N b mod 16)) EmptyString).

Fixpoint hex (bs : list byte) : string :=
  match bs with
  | [] => EmptyString
  | b :: bs => hex_byte b +:+ hex bs
  end.

(** The characters [hex] writes. *)
Definition hex_char (c : ascii) : Prop :=
  c ∈ list_ascii_of_string "0123456789abcdef".

End Blake2b.

(** ** Python values, as [json.load] produces them

    JSON numbers are restricted to integers; a dictionary is the list of
    its items, looked up from the front. *)
Module Py.

Inductive exn :=
| TypeError | KeyError | AttributeError | ValueError
| ZeroDivisionError | OSError.

Inductive pyval :=
| VNone
| VBool (b : bool)
| VInt (z : Z)
| VStr (s : string)
| VList (l : list pyval)
| VDict (d : list (string * pyval)).

Fixpoint dict_get (d : list (string * pyval)) (k : string) : option pyval :=
  match d with
  | [] => None
  | (k', v) :: d => if String.eqb k' k then Some v else dict_get d k
  end.

(** [v[k]] for a string key [k]. *)
Definition subscript (v : pyval) (k : string) : exn + pyval :=
  match v with
  | VDict d => match dict_get d k with
               | Some x => inr x
               | None => inl KeyError
               end
  | _ => inl TypeError
  end.

(** [v.get(k, dflt)]: only dictionaries have the method. *)
Definition get (v : pyval) (k : string) (dflt : pyval) : exn + pyval :=
  match v with
  | VDict d => inr (default dflt (dict_get d k))
  | _ => inl AttributeError
  end.

(** [len(v)]. *)
Definition len (v : pyval) : exn + Z :=
  match v with
  | VStr s => inr (Z.of_nat (String.length s))
  | VList l => inr (Z.of_nat (length l))
  | VDict d => inr (Z.of_nat (length d))
  | _ => inl TypeError
  end.

(** Truth value of [v], as [not v] tests it. *)
Definition truthy (v : pyval) : bool :=
  match v with
  | VNone => false
  | VBool b => b
  | VInt z => negb (z =? 0)
  | VStr s => negb (String.eqb s "")
  | VList l => match l with [] => false | _ => true end
  | VDict d => match d with [] => false | _ => true end
  end.

(** The items a [for] loop over [v] visits. *)
Definition iter (v : pyval) : exn + list pyval :=
  match v with
  | VList l => inr l
  | VStr s => inr (map (fun c => VStr (String c EmptyString)) (list_ascii_of_string s))
  | VDict d => inr (map (fun kv => VStr (fst kv)) d)
  | _ => inl TypeError
  end.

(** [v == s] for a string [s]. *)
Definition eq_str (v : pyval) (s : string) : bool :=
  match v with
  | VStr s' => String.eqb s' s
  | _ => false
  end.

(** [n + v] for an integer [n]; [bool] is a subclass of [int]. *)
Definition add_int (n : Z) (v : pyval) : exn + Z :=
  match v with
  | VInt z => inr (n + z)
  | VBool b => inr (n + (if b then 1 else 0))
  | _ => inl TypeError
  end.

(** [str(n)] for an integer [n]. *)
Definition str_int (n : Z) : string := NilZero.string_of_int (Z.to_int n).

End Py.

(** ** The file system and the calls of [os], [pathlib] and [open]

    Paths are POSIX strings, already normalised; a file carries its bytes,
    the text [str(os.stat(p).st_mtime)] prints for it, and what happens
    when it is read. Directories are not represented. *)
Module OS.

(** What reading a file comes to: [open(p, 'rb')] and the reads succeed;
    [open] succeeds and [read] raises; or [open] itself raises. *)
Inductive access := Readable | ReadRaises | OpenRaises.

(** A file given with [true] can be read; one given with [false] cannot
    be opened. *)
Definition access_of_bool (b : bool) : access :=
  if b then Readable else OpenRaises.

Coercion access_of_bool : bool >-> access.

Record file := mkFile {
  f_data : list byte;
  f_mtime : string;
  f_access : access
}.

(** The content of the file can be read: [open] and [read] succeed. *)
Definition f_readable (f : file) : bool :=
  match f_access f with Readable => true | _ => false end.

Abbreviation filesystem := (gmap string file).

Definition exists_ (fs : filesystem) (p : string) : bool :=
  match fs !! p with Some _ => true | None => false end.

(** [os.path.getsize(p)], also [os.stat(p).st_size]. *)
Definition getsize (fs : filesystem) (p : string) : option Z :=
  match fs !! p with
  | Some f => Some (Z.of_nat (length (f_data f)))
  | None => None
  end.

Definition st_mtime (fs : filesystem) (p : string) : option string :=
  f_mtime <$> fs !! p.

(** A file object opened with ['rb']: the bytes, the position, the
    reads served so far as (offset, count) pairs, and whether its reads
    raise. *)
Record reader := mkReader {
  r_data : list byte;
  r_pos : nat;
  r_reads : list (nat * nat);
  r_raises : bool
}.

(** [open(p, 'rb')]; [None] when it raises. *)
Definition open_rb (fs : filesystem) (p : string) : option reader :=
  match fs !! p with
  | Some f =>
      match f_access f with
      | Readable => Some (mkReader (f_data f) 0 [] false)
      | ReadRaises => Some (mkReader (f_data f) 0 [] true)
      | OpenRaises => None
      end
  | None => None
  end.

(** [f.read(n)]; [None] when it raises. *)
Definition read (n : nat) (r : reader) : option (list byte * reader) :=
  if r_raises r then None
  else
    let bs := take n (drop (r_pos r) (r_data r)) in
    Some (bs, mkReader (r_data r) (r_pos r + length bs)
                (r_reads r ++ [(r_pos r, length bs)]) false).

(** [f.read()]; [None] when it raises. *)
Definition read_all (r : reader) : option (list byte * reader) :=
  if r_raises r then None
  else
    let bs := drop (r_pos r) (r_data r) in
    Some (bs, mkReader (r_data r) (r_pos r + length bs)
                (r_reads r ++ [(r_pos r, length bs)]) false).

(** [f.seek(-n, os.SEEK_END)]; a position before the start is an error. *)
Definition seek_end (n : nat) (r : reader) : option reader :=
  if (n <=? length (r_data r))%nat
  then Some (mkReader (r_data r) (length (r_data r) - n) (r_reads r)
                      (r_raises r))
  else None.

(** [open(p, 'wb')]: the file is created or truncated, stamped [now]. *)
Definition open_wb (now : string) (p : string) (fs : filesystem) : filesystem :=
  <[p := mkFile [] now true]> fs.

(** [dst.write(chunk)] on the file opened at [p]; the buffer of the
    file object is not represented. *)
Definition write (now : string) (p : string) (chunk : list byte)
    (fs : filesystem) : filesystem :=
  match fs !! p with
  | Some f => <[p := mkFile (f_data f ++ chunk) now (f_access f)]> fs
  | None => <[p := mkFile chunk now true]> fs
  end.

(** [Path(p).unlink()] guarded by [Path(p).exists()]. *)
Definition unlink_if_exists (p : string) (fs : filesystem) : filesystem :=
  if exists_ fs p then delete p fs else fs.

(** [str(Path(folder) / p)] and [os.path.join(folder, p)] for a path [p]
    that is relative, not empty and in normal form, as the paths of a
    generated manifest and the names of [os.walk] are; on other paths
    [pathlib] answers differently. *)
Definition join (folder p : string) : string := folder +:+ "/" +:+ p.

Fixpoint strip_prefix (pre s : string) : option string :=
  match pre with
  | EmptyString => Some s
  | String c pre =>
      match s with
      | String c' s => if Ascii.eqb c c' then strip_prefix pre s else None
      | EmptyString => None
      end
  end.

(** [str(Path(p).relative_to(folder))]; [None] stands for [ValueError]. *)
Definition relative_to (folder p : string) : option string :=
  strip_prefix (folder +:+ "/") p.

(** [Path(p).name]: the text after the last separator. *)
Fixpoint name_from (acc : string) (s : string) : string :=
  match s with
  | EmptyString => acc
  | String c s =>
      if Ascii.eqb c "/" then name_from EmptyString s
      else name_from (acc +:+ String c EmptyString) s
  end.

Definition name (p : string) : string := name_from EmptyString p.

End OS.

(** ** [hashlib.blake2b(digest_size=32)]: the hasher is the bytes fed so far *)
Module Hashlib.

Definition hasher := list byte.

Definition new : hasher := [].

Definition update (h : hasher) (bs : list byte) : hasher := h ++ bs.

Definition hexdigest (h : hasher) : string :=
  Blake2b.hex (Blake2b.blake2b 32 h).

(** [s.encode()] *)
Definition encode (s : string) : list byte := list_byte_of_string s.

End Hashlib.

Definition head_len : nat := Z.to_nat 65536.

(** ** [files_report.py] *)
Module FilesReport.
Import OS Hashlib.

(** The body of the [try] block of [calculate_fast_hash]: the hasher and
    the file object when it exits normally, [None] when it raises. *)
Definition hash_file (fs : filesystem) (filepath : string)
    : option (hasher * reader) :=
  f ← open_rb fs filepath;
  '(bs, f) ← read head_len f;
  let h := update new bs in
  size ← getsize fs filepath;
  '(h, f) ← (if 131072 <? size
             then f ← seek_end head_len f;
                  '(bs, f) ← read_all f;
                  Some (update h bs, f)
             else Some (h, f));
  st_size ← getsize fs filepath;
  mtime ← st_mtime fs filepath;
  let h := update h (encode (Py.str_int st_size)) in
  let h := update h (encode mtime) in
  Some (h, f).

Definition calculate_fast_hash (fs : filesystem) (filepath : string) : string :=
  match hash_file fs filepath with
  | Some (h, _) => hexdigest h
  | None => "error"
  end.

(** A record of [report["files"]] as [generate_directory_report] appends
    it; the float under ["modified"], which the engine never reads, is
    left out. *)
Definition record (path hash : string) (size : Z) : Py.pyval :=
  Py.VDict [("path", Py.VStr path); ("size", Py.VInt size);
            ("hash", Py.VStr hash)].

(** The report with these records; the ["statistics"] block, which the
    engine never reads, is left out. *)
Definition report (records : list Py.pyval) : Py.pyval :=
  Py.VDict [("files", Py.VList records)].

(** What [os.path.isdir] and [os.walk] give for the scanned directory:
    whether it is one, and each directory visited, by its path relative
    to the scanned one (empty for the scanned directory itself), with
    the names of the files in it. *)
Record scan := mkScan {
  s_isdir : bool;
  s_walk : list (string * list string)
}.

(** The [root] that [os.walk] yields for the directory at [sub]. *)
Definition walk_root (directory sub : string) : string :=
  if String.eqb sub "" then directory else join directory sub.

(** [os.path.relpath(os.path.join(root, file), directory)] for such a
    [root]. *)
Definition relpath (sub file : string) : string :=
  if String.eqb sub "" then file else join sub file.

(** The running state of the scan: [report["files"]], the hasher of the
    overall hash, [total_size] and [processed_files]. *)
Record scanned := mkScanned {
  sc_files : list Py.pyval;
  sc_hasher : hasher;
  sc_total_size : Z;
  sc_processed : Z
}.

(** The body of the inner loop of [generate_directory_report]; the
    progress line it prints is left out. *)
Definition scan_file (fs : filesystem) (directory sub file : string)
    (acc : scanned) : scanned :=
  let root := walk_root directory sub in
  let file_path := join root file in
  match getsize fs file_path with
  | None => acc
  | Some file_size =>
      let file_hash := calculate_fast_hash fs file_path in
      if String.eqb file_hash "error" then acc
      else
        let relative_path := relpath sub file in
        let display_path :=
          if String.eqb root directory then file else relative_path in
        mkScanned
          (sc_files acc ++ [record display_path file_hash file_size])
          (update (update (sc_hasher acc) (encode file_hash))
                  (encode relative_path))
          (sc_total_size acc + file_size)
          (sc_processed acc + 1)
  end.

Definition scan_dir (fs : filesystem) (directory : string)
    (acc : scanned) (visit : string * list string) : scanned :=
  fold_left (fun acc file => scan_file fs directory (fst visit) file acc)
            (snd visit) acc.

(** The ["statistics"] block of the report; the scan duration, a float
    read off the clock, is left out. *)
Record statistics := mkStatistics {
  st_total_files : Z;
  st_total_size : Z;
  st_overall_hash : string
}.

(** [generate_directory_report]: what it dumps to the output file, or
    [None] when it returns before writing. *)
Definition generate_directory_report (sc : scan) (fs : filesystem)
    (directory : string) : option (Py.pyval * statistics) :=
  if negb (s_isdir sc) then None
  else
    let total_files :=
      fold_right (fun v n => Z.of_nat (length (snd v)) + n) 0 (s_walk sc) in
    if total_files =? 0 then None
    else
      let acc := fold_left (scan_dir fs directory) (s_walk sc)
                   (mkScanned [] new 0 0) in
      Some (report (sc_files acc),
            mkStatistics (sc_processed acc) (sc_total_size acc)
              (if 0 <? sc_processed acc then hexdigest (sc_hasher acc)
               else "")).

End FilesReport.

(** ** [main.py] *)
Module Main.
Import OS Hashlib.

(** As in [files_report.py]: the [try] block of [calculate_fast_hash]. *)
Definition hash_file (fs : filesystem) (filepath : string)
    : option (hasher * reader) :=
  f ← open_rb fs filepath;
  '(bs, f) ← read head_len f;
  let h := update new bs in
  size ← getsize fs filepath;
  '(h, f) ← (if 131072 <? size
             then f ← seek_end head_len f;
                  '(bs, f) ← read_all f;
                  Some (update h bs, f)
             else Some (h, f));
  st_size ← getsize fs filepath;
  mtime ← st_mtime fs filepath;
  let h := update h (encode (Py.str_int st_size)) in
  let h := update h (encode mtime) in
  Some (h, f).

Definition calculate_fast_hash (fs : filesystem) (filepath : string) : string :=
  match hash_file fs filepath with
  | Some (h, _) => hexdigest h
  | None => "error"
  end.

(** The texts of [status_text], by the f-string that builds them. *)
Inductive status :=
| StEmpty
| StManifestError                      (* "Ошибка: манифест не загружен или пуст" *)
| StMissing (name : string)            (* "{name} - отсутствует" *)
| StCheckFailed (name : string)        (* "{name} - не прошел проверку" *)
| StOK (name : string)                 (* "{name} - OK" *)
| StCheckError (name : string)         (* "{name} - ошибка проверки" *)
| StNotFound (source : string)         (* "Файл не найден: {source}" *)
| StCopying (name : string) (downloaded total : Z)
| StCopyError (e : Py.exn)             (* "Ошибка копирования: ..." *)
| StVerifyError (e : Py.exn)           (* "Ошибка проверки: ..." *)
| StCritical (e : Py.exn)              (* "Критическая ошибка: ..." *)
| StAllDone                            (* "Все файлы успешно загружены" *)
| StReady                              (* "Готово к запуску" *)
| StPreparing.                         (* "Подготовка к загрузке..." *)

(** The texts of [total_status_text]. *)
Inductive total_status :=
| TsEmpty
| TsManifestError                      (* "Ошибка загрузки манифеста" *)
| TsChecking (processed total : Z)     (* "Проверка файлов: i/n" *)
| TsDownloading (current total done_bytes total_bytes : Z)
| TsFinished (files size : Z)          (* "Завершено: n файлов, s MB" *)
| TsUpToDate (total : Z)               (* "Проверка завершена: все файлы актуальны" *)
| TsFound (files total size : Z).      (* "Найдено n файлов для загрузки (из t)" *)

Definition entry : Type := string * string * Z.

Definition e_source (e : entry) : string := fst (fst e).
Definition e_destination (e : entry) : string := snd (fst e).
Definition e_size (e : entry) : Z := snd e.

(** The fields of [Downloader] the engine reads and writes. The progress
    percentages are floats shown in the progress bars only and are left
    out, as are the widgets; [test_mode] is always [True]. *)
Record downloader := mkDownloader {
  download_queue : list entry;
  current_download : option entry;
  manifest : Py.pyval;
  files_to_download : list Py.pyval;
  source_folder : string;
  download_folder : string;
  status_text : status;
  total_status_text : total_status;
  total_files : Z;
  processed_files : Z;
  total_size_bytes : Z;
  downloaded_bytes : Z;
  files_requiring_download : Z;
  size_requiring_download : Z
}.

(** [Downloader.__init__] *)
Definition init (source download : string) : downloader :=
  mkDownloader [] None Py.VNone [] source download StEmpty TsEmpty 0 0 0 0 0 0.

Definition set_download_queue (q : list entry) (d : downloader) :=
  mkDownloader q (current_download d) (manifest d) (files_to_download d)
    (source_folder d) (download_folder d) (status_text d) (total_status_text d)
    (total_files d) (processed_files d) (total_size_bytes d) (downloaded_bytes d)
    (files_requiring_download d) (size_requiring_download d).

Definition set_current_download (c : option entry) (d : downloader) :=
  mkDownloader (download_queue d) c (manifest d) (files_to_download d)
    (source_folder d) (download_folder d) (status_text d) (total_status_text d)
    (total_files d) (processed_files d) (total_size_bytes d) (downloaded_bytes d)
    (files_requiring_download d) (size_requiring_download d).

Definition set_manifest (m : Py.pyval) (d : downloader) :=
  mkDownloader (download_queue d) (current_download d) m (files_to_download d)
    (source_folder d) (download_folder d) (status_text d) (total_status_text d)
    (total_files d) (processed_files d) (total_size_bytes d) (downloaded_bytes d)
    (files_requiring_download d) (size_requiring_download d).

Definition set_files_to_download (l : list Py.pyval) (d : downloader) :=
  mkDownloader (download_queue d) (current_download d) (manifest d) l
    (source_folder d) (download_folder d) (status_text d) (total_status_text d)
    (total_files d) (processed_files d) (total_size_bytes d) (downloaded_bytes d)
    (files_requiring_download d) (size_requiring_download d).

Definition set_status_text (s : status) (d : downloader) :=
  mkDownloader (download_queue d) (current_download d) (manifest d)
    (files_to_download d) (source_folder d) (download_folder d) s
    (total_status_text d) (total_files d) (processed_files d)
    (total_size_bytes d) (downloaded_bytes d)
    (files_requiring_download d) (size_requiring_download d).

Definition set_total_status_text (s : total_status) (d : downloader) :=
  mkDownloader (download_queue d) (current_download d) (manifest d)
    (files_to_download d) (source_folder d) (download_folder d)
    (status_text d) s (total_files d) (processed_files d)
    (total_size_bytes d) (downloaded_bytes d)
    (files_requiring_download d) (size_requiring_download d).

Definition set_total_files (n : Z) (d : downloader) :=
  mkDownloader (download_queue d) (current_download d) (manifest d)
    (files_to_download d) (source_folder d) (download_folder d)
    (status_text d) (total_status_text d) n (processed_files d)
    (total_size_bytes d) (downloaded_bytes d)
    (files_requiring_download d) (size_requiring_download d).

Definition set_processed_files (n : Z) (d : downloader) :=
  mkDownloader (download_queue d) (current_download d) (manifest d)
    (files_to_download d) (source_folder d) (download_folder d)
    (status_text d) (total_status_text d) (total_files d) n
    (total_size_bytes d) (downloaded_bytes d)
    (files_requiring_download d) (size_requiring_download d).

Definition set_total_size_bytes (n : Z) (d : downloader) :=
  mkDownloader (download_queue d) (current_download d) (manifest d)
    (files_to_download d) (source_folder d) (download_folder d)
    (status_text d) (total_status_text d) (total_files d) (processed_files d)
    n (downloaded_bytes d)
    (files_requiring_download d) (size_requiring_download d).

Definition set_downloaded_bytes (n : Z) (d : downloader) :=
  mkDownloader (download_queue d) (current_download d) (manifest d)
    (files_to_download d) (source_folder d) (download_folder d)
    (status_text d) (total_status_text d) (total_files d) (processed_files d)
    (total_size_bytes d) n
    (files_requiring_download d) (size_requiring_download d).

Definition set_files_requiring_download (n : Z) (d : downloader) :=
  mkDownloader (download_queue d) (current_download d) (manifest d)
    (files_to_download d) (source_folder d) (download_folder d)
    (status_text d) (total_status_text d) (total_files d) (processed_files d)
    (total_size_bytes d) (downloaded_bytes d) n (size_requiring_download d).

Definition set_size_requiring_download (n : Z) (d : downloader) :=
  mkDownloader (download_queue d) (current_download d) (manifest d)
    (files_to_download d) (source_folder d) (download_folder d)
    (status_text d) (total_status_text d) (total_files d) (processed_files d)
    (total_size_bytes d) (downloaded_bytes d) (files_requiring_download d) n.

(** [load_manifest]. [loaded] is what [open] and [json.load] give for the
    configured manifest file, [None] when either raises; the result is
    the returned value, [VNone] for [None]. *)
Definition load_manifest (loaded : option Py.pyval) (d : downloader)
    : downloader * Py.pyval :=
  match loaded with
  | Some manifest_data =>
      match Py.get manifest_data "files" (Py.VList []) with
      | inr fl =>
          match Py.len fl with
          | inr n => (set_processed_files 0 (set_total_files n d), manifest_data)
          | inl _ => (set_total_files 0 d, Py.VNone)
          end
      | inl _ => (set_total_files 0 d, Py.VNone)
      end
  | None => (set_total_files 0 d, Py.VNone)
  end.

(** The three statements that put a record on the download list. *)
Definition mark_for_download (file_info file_size : Py.pyval) (d : downloader)
    : downloader * option Py.exn :=
  let d := set_files_to_download (files_to_download d ++ [file_info]) d in
  let d := set_files_requiring_download (files_requiring_download d + 1) d in
  match Py.add_int (size_requiring_download d) file_size with
  | inr n => (set_size_requiring_download n d, None)
  | inl e => (d, Some e)
  end.

(** One iteration of the loop of [check_files]: the state it leaves and
    the exception that escapes it, if any. An exception raised where the
    hashes are compared is caught by the handler of the check, which
    marks the record once more. *)
Definition check_one (fs : filesystem) (file_info : Py.pyval) (d : downloader)
    : downloader * option Py.exn :=
  match Py.subscript file_info "path" with
  | inl e => (d, Some e)
  | inr (Py.VStr path) =>
      let file_path := join (download_folder d) path in
      match Py.subscript file_info "hash" with
      | inl e => (d, Some e)
      | inr expected_hash =>
          match Py.get file_info "size" (Py.VInt 0) with
          | inl e => (d, Some e)
          | inr file_size =>
              let d := set_processed_files (processed_files d + 1) d in
              let d := set_total_status_text
                         (TsChecking (processed_files d) (total_files d)) d in
              if negb (exists_ fs file_path) then
                mark_for_download file_info file_size
                  (set_status_text (StMissing (name file_path)) d)
              else
                let current_hash := calculate_fast_hash fs file_path in
                if negb (Py.eq_str expected_hash current_hash) then
                  match mark_for_download file_info file_size
                          (set_status_text (StCheckFailed (name file_path)) d)
                  with
                  | (d, None) => (d, None)
                  | (d, Some _) =>
                      mark_for_download file_info file_size
                        (set_status_text (StCheckError (name file_path)) d)
                  end
                else
                  (set_status_text (StOK (name file_path)) d, None)
          end
      end
  | inr _ => (d, Some Py.TypeError)
  end.

(** What a call of [check_files] leaves: the object, the status texts
    [update_progress] has put on the page, in order, and the returned
    list or the exception that escaped. *)
Record checked := mkChecked {
  c_state : downloader;
  c_shown : list status;
  c_value : Py.exn + list Py.pyval
}.

Fixpoint check_loop (fs : filesystem) (items : list Py.pyval)
    (shown : list status) (d : downloader) : checked :=
  match items with
  | [] => mkChecked d shown (inr (files_to_download d))
  | file_info :: items =>
      match check_one fs file_info d with
      | (d, Some e) => mkChecked d shown (inl e)
      | (d, None) => check_loop fs items (shown ++ [status_text d]) d
      end
  end.

Definition check_files (loaded : option Py.pyval) (fs : filesystem)
    (d : downloader) : checked :=
  let '(d, m) := load_manifest loaded d in
  let d := set_manifest m d in
  let reject d :=
    let d := set_status_text StManifestError d in
    let d := set_total_status_text TsManifestError d in
    mkChecked d [status_text d] (inr []) in
  if negb (Py.truthy m) then reject d
  else
    match Py.get m "files" Py.VNone with
    | inl e => mkChecked d [] (inl e)
    | inr fl =>
        if negb (Py.truthy fl) then reject d
        else
          match Py.len fl with
          | inl e => mkChecked d [] (inl e)
          | inr n =>
              let d := set_total_files n d in
              let d := set_processed_files 0 d in
              let d := set_files_to_download [] d in
              let d := set_files_requiring_download 0 d in
              let d := set_size_requiring_download 0 d in
              match Py.iter fl with
              | inl e => mkChecked d [] (inl e)
              | inr items => check_loop fs items [] d
              end
          end
    end.

(** [add_download], with [test_mode] set. The size of a record that went
    through [check_files] is an integer. *)
Definition add_download (file_info : Py.pyval) (d : downloader)
    : Py.exn + downloader :=
  match Py.subscript file_info "path" with
  | inl e => inl e
  | inr (Py.VStr path) =>
      let source_path := join (source_folder d) path in
      let destination := join (download_folder d) path in
      match Py.get file_info "size" (Py.VInt 0) with
      | inl e => inl e
      | inr size =>
          match Py.add_int 0 size with
          | inl e => inl e
          | inr n =>
              inr (set_download_queue
                     (download_queue d ++ [(source_path, destination, n)]) d)
          end
      end
  | inr _ => inl Py.TypeError
  end.

(** What the operating system does while one queue entry is processed:
    whether [mkdir] raises, where an I/O error strikes the copy ([Some 0]:
    at [open]; [Some (S k)]: while chunk [k] is moved, the chunks before
    it written), and the time stamp it puts on files written meanwhile. *)
Record os_events := mkOs {
  mkdir_fails : bool;
  io_fault : option nat;
  now : string
}.

Definition fault_at (ev : os_events) (n : nat) : bool :=
  match io_fault ev with
  | Some m => Nat.eqb m n
  | None => false
  end.

(** The engine and the disk it works on. *)
Record world := mkWorld {
  w_fs : filesystem;
  w_dl : downloader
}.

(** The way one iteration of the [while] loop ends: the bottom of the
    body, or one of the [continue] statements. *)
Inductive outcome :=
| Installed
| SourceMissing
| CopyFailed (e : Py.exn)
| VerifyFailed (e : Py.exn)
| CriticalError (e : Py.exn).

Definition chunk_size : nat := 1024 * 1024.

(** The successive results of [src.read(n)] up to the empty one. *)
Fixpoint chunks_of (fuel : nat) (n : nat) (data : list byte) : list (list byte) :=
  match fuel with
  | O => []
  | S fuel =>
      match data with
      | [] => []
      | _ => take n data :: chunks_of fuel n (drop n data)
      end
  end.

(** The [while True] loop of the local copy, one chunk per step. The
    result is the worlds passed through, the world at the end, and the
    exception that broke the loop, if any. *)
Fixpoint copy_chunks (ev : os_events) (destination : string) (total_size : Z)
    (k : nat) (chunks : list (list byte)) (downloaded : Z) (w : world)
    : list world * world * option Py.exn :=
  match chunks with
  | [] => ([], w, None)
  | chunk :: chunks =>
      if fault_at ev (S k) then ([], w, Some Py.OSError)
      else
        let fs := write (now ev) destination chunk (w_fs w) in
        let downloaded := downloaded + Z.of_nat (length chunk) in
        let d := set_downloaded_bytes
                   (downloaded_bytes (w_dl w) + Z.of_nat (length chunk)) (w_dl w) in
        let w1 := mkWorld fs d in
        if (total_size =? 0) || (total_size_bytes d =? 0)
        then ([w1], w1, Some Py.ZeroDivisionError)
        else
          let w2 := mkWorld fs (set_status_text
                      (StCopying (name destination) downloaded total_size) d) in
          let '(tr, wf, r) :=
            copy_chunks ev destination total_size (S k) chunks downloaded w2 in
          (w1 :: w2 :: tr, wf, r)
  end.

(** The [with open(source, 'rb') as src, open(destination, 'wb') as dst]
    block. The source is read after the destination has been truncated;
    a source whose reads raise breaks the loop at the first [read]. *)
Definition copy_file (ev : os_events) (source destination : string)
    (total_size : Z) (w : world) : list world * world * option Py.exn :=
  if fault_at ev 0 then ([], w, Some Py.OSError)
  else
    match open_rb (w_fs w) source with
    | None => ([], w, Some Py.OSError)
    | Some src =>
        let w1 := mkWorld (open_wb (now ev) destination (w_fs w)) (w_dl w) in
        if r_raises src then ([w1], w1, Some Py.OSError)
        else
          let data := match w_fs w1 !! source with
                      | Some f => f_data f
                      | None => []
                      end in
          let '(tr, wf, r) :=
            copy_chunks ev destination total_size 0
              (chunks_of (length data) chunk_size data) 0 w1 in
          (w1 :: tr, wf, r)
    end.

(** [next((f["hash"] for f in files if f["path"] == rel), None)], where
    [rel] is [None] when [relative_to] raises. *)
Fixpoint find_hash (rel : option string) (files : list Py.pyval)
    : Py.exn + Py.pyval :=
  match files with
  | [] => inr Py.VNone
  | f :: files =>
      match Py.subscript f "path" with
      | inl e => inl e
      | inr p =>
          match rel with
          | None => inl Py.ValueError
          | Some rel' =>
              if Py.eq_str p rel' then Py.subscript f "hash"
              else find_hash rel files
          end
      end
  end.

(** The [try] block that checks the hash after the download: [None] when
    it passes, the exception otherwise. *)
Definition verify (destination : string) (w : world) : option Py.exn :=
  let downloaded_hash := calculate_fast_hash (w_fs w) destination in
  match Py.subscript (manifest (w_dl w)) "files" with
  | inl e => Some e
  | inr fl =>
      match Py.iter fl with
      | inl e => Some e
      | inr items =>
          match find_hash (relative_to (download_folder (w_dl w)) destination)
                          items with
          | inl e => Some e
          | inr expected_hash =>
              if negb (Py.eq_str expected_hash downloaded_hash)
              then Some Py.ValueError
              else None
          end
      end
  end.

(** The body of the [while] loop for the entry just popped. *)
Definition process_entry (ev : os_events) (e : entry) (w : world)
    : list world * world * outcome :=
  let source := e_source e in
  let destination := e_destination e in
  let w0 := mkWorld (w_fs w) (set_current_download (Some e) (w_dl w)) in
  if mkdir_fails ev then
    let w' := mkWorld (w_fs w0)
                (set_status_text (StCritical Py.OSError) (w_dl w0)) in
    ([w0; w'], w', CriticalError Py.OSError)
  else
    let d := w_dl w0 in
    let files_left := Z.of_nat (length (download_queue d)) in
    let current_file_num := total_files d - files_left in
    let d := set_total_status_text
               (TsDownloading current_file_num (total_files d)
                  (downloaded_bytes d) (total_size_bytes d)) d in
    let w1 := mkWorld (w_fs w0) d in
    if negb (exists_ (w_fs w1) source) then
      let w' := mkWorld (w_fs w1) (set_status_text (StNotFound source) d) in
      ([w0; w1; w'], w', SourceMissing)
    else
      match getsize (w_fs w1) source with
      | None =>
          let w' := mkWorld (w_fs w1)
                      (set_status_text (StCritical Py.OSError) d) in
          ([w0; w1; w'], w', CriticalError Py.OSError)
      | Some total_size =>
          match copy_file ev source destination total_size w1 with
          | (tr, wc, Some copy_error) =>
              let w' := mkWorld (unlink_if_exists destination (w_fs wc))
                          (set_status_text (StCopyError copy_error) (w_dl wc)) in
              ([w0; w1] ++ tr ++ [w'], w', CopyFailed copy_error)
          | (tr, wc, None) =>
              match verify destination wc with
              | Some hash_error =>
                  let w' := mkWorld (unlink_if_exists destination (w_fs wc))
                              (set_status_text (StVerifyError hash_error) (w_dl wc)) in
                  ([w0; w1] ++ tr ++ [w'], w', VerifyFailed hash_error)
              | None => ([w0; w1] ++ tr, wc, Installed)
              end
          end
      end.

(** The [while self.download_queue] loop: entry number [i] runs under
    [os i]. The result is the worlds passed through, in order, each entry
    with the way its iteration ended, and the world at the end. *)
Fixpoint queue_loop (os : nat -> os_events) (i : nat) (q : list entry)
    (w : world) : list world * list (entry * outcome) * world :=
  match q with
  | [] => ([], [], w)
  | e :: q =>
      let w0 := mkWorld (w_fs w) (set_download_queue q (w_dl w)) in
      let '(tr, w1, o) := process_entry (os i) e w0 in
      let '(tr', log, wf) := queue_loop os (S i) q w1 in
      (tr ++ tr', (e, o) :: log, wf)
  end.

Record run := mkRun {
  r_trace : list world;
  r_log : list (entry * outcome);
  r_final : world
}.

Definition sum_sizes (q : list entry) : Z :=
  fold_right (fun e acc => e_size e + acc) 0 q.

(** [process_queue] *)
Definition process_queue (os : nat -> os_events) (w : world) : run :=
  let d := w_dl w in
  let total_download_size := sum_sizes (download_queue d) in
  let d := set_total_size_bytes total_download_size d in
  let d := set_downloaded_bytes 0 d in
  let w0 := mkWorld (w_fs w) d in
  let '(tr, log, wf) := queue_loop os 0 (download_queue d) w0 in
  let d := set_current_download None (w_dl wf) in
  let d := set_status_text StAllDone d in
  let d := set_total_status_text
             (TsFinished (files_requiring_download d)
                         (size_requiring_download d)) d in
  let w' := mkWorld (w_fs wf) d in
  mkRun (w0 :: tr ++ [w']) log w'.

(** The loop of [start_file_check] that queues the files to download. *)
Fixpoint add_downloads (files : list Py.pyval) (d : downloader)
    : Py.exn + downloader :=
  match files with
  | [] => inr d
  | file_info :: files =>
      match add_download file_info d with
      | inl e => inl e
      | inr d => add_downloads files d
      end
  end.

(** The handler [start_file_check] of the check button, without its
    widgets: how it ends. *)
Inductive session :=
| Raised (e : Py.exn)
| UpToDate (d : downloader)
| Synced (r : run).

Definition start_file_check (loaded : option Py.pyval) (os : nat -> os_events)
    (fs : filesystem) (source download : string) : session :=
  let ck := check_files loaded fs (init source download) in
  let d := c_state ck in
  match c_value ck with
  | inl e => Raised e
  | inr [] =>
      let d := set_total_status_text (TsUpToDate (total_files d)) d in
      UpToDate (set_status_text StReady d)
  | inr files_to_download =>
      let d := set_total_status_text
                 (TsFound (files_requiring_download d) (total_files d)
                          (size_requiring_download d)) d in
      let d := set_status_text StPreparing d in
      match add_downloads files_to_download d with
      | inl e => Raised e
      | inr d => Synced (process_queue os (mkWorld fs d))
      end
  end.

Definition s_run (s : session) : option run :=
  match s with Synced r => Some r | _ => None end.

End Main.

(** ** The specification's wording, for comparison with the code *)
Module Spec.
Import OS.

(** The fingerprint of §4.1: a 256-bit hash of the first 65536 bytes, of
    the last 65536 bytes when the file is larger than 131072 bytes, of
    the size in decimal and of the modification time as printed, in
    lowercase hex. *)
Definition fingerprint (f : file) : string :=
  let data := f_data f in
  let size := length data in
  Blake2b.hex
    (Blake2b.blake2b 32
       (take head_len data
        ++ (if 131072 <? Z.of_nat size then drop (size - head_len) data else [])
        ++ list_byte_of_string (Py.str_int (Z.of_nat size))
        ++ list_byte_of_string (f_mtime f))).

(** Bytes of content a file object has handed out. *)
Definition bytes_read (r : reader) : nat :=
  fold_right (fun rd acc => (snd rd + acc)%nat) 0%nat (r_reads r).



(** §3: the final path holds the previous complete file or the new
    complete file. *)
Definition old_or_new (before : filesystem) (source destination : string)
    (now : filesystem) : Prop :=
  now !! destination = before !! destination
  ∨ ∃ f s, now !! destination = Some f ∧ before !! source = Some s
           ∧ f_data f = f_data s.





(** §7: what the user is left with when the session ends. *)
Definition summary (r : Main.run) : Main.status * Main.total_status :=
  (Main.status_text (Main.w_dl (Main.r_final r)),
   Main.total_status_text (Main.w_dl (Main.r_final r))).

End Spec.

(** ** The planner of §4.3, in the specification's words *)
Module Plan.
Import OS.

Inductive reason := Missing | Mismatch | ReadError.

Inductive sync_action := Skip | Fetch (r : reason).

(** The decision for the record with this path and fingerprint. *)
Definition plan_one (fs : filesystem) (root path fingerprint : string)
    : sync_action :=
  match fs !! join root path with
  | None => Fetch Missing
  | Some f =>
      if f_readable f then
        if String.eqb (Spec.fingerprint f) fingerprint then Skip
        else Fetch Mismatch
      else Fetch ReadError
  end.

Definition fetches (a : sync_action) : bool :=
  match a with Skip => false | Fetch _ => true end.

(** The status text the engine shows for a decision; it has one text for
    the two reasons found by hashing. *)
Definition shown_as (a : sync_action) (name : string) : Main.status :=
  match a with
  | Skip => Main.StOK name
  | Fetch Missing => Main.StMissing name
  | Fetch _ => Main.StCheckFailed name
  end.



(** A record given by its path, hash and size, and its decision. *)
Definition to_record (r : string * string * Z) : Py.pyval :=
  FilesReport.record (fst (fst r)) (snd (fst r)) (snd r).

Definition planned (fs : filesystem) (root : string)
    (r : string * string * Z) : sync_action :=
  plan_one fs root (fst (fst r)) (snd (fst r)).


(** The value under ["files"], when the manifest file loaded as an
    object that has the key. *)
Definition manifest_files (loaded : option Py.pyval) : option Py.pyval :=
  match loaded with
  | Some (Py.VDict d) => Py.dict_get d "files"
  | _ => None
  end.

(** [check_files] gave up on the manifest: nothing to download and the
    manifest error on display. *)
Definition rejected (ck : Main.checked) : Prop :=
  Main.c_value ck = inr []
  ∧ Main.status_text (Main.c_state ck) = Main.StManifestError
  ∧ Main.total_status_text (Main.c_state ck) = Main.TsManifestError.




(** The first of these records whose path is [path]. *)
Definition first_with_path (path : string) (rs : list (string * string * Z))
    : option (string * string * Z) :=
  List.find (fun r => String.eqb (fst (fst r)) path) rs.

(** The source of the entry can be read and holds at least one byte. *)
Definition has_bytes (fs : filesystem) (e : Main.entry) : Prop :=
  ∃ sf, fs !! Main.e_source e = Some sf
        ∧ f_readable sf = true ∧ f_data sf ≠ [].

(** Nothing goes wrong on the side of the operating system. *)
Definition untroubled (ev : Main.os_events) : Prop :=
  Main.mkdir_fails ev = false ∧ Main.io_fault ev = None.


(** There is a file at [p] and its content can be read: [open] and
    [read] succeed on it. *)
Definition readable_at (fs : filesystem) (p : string) : bool :=
  match fs !! p with Some f => f_readable f | None => false end.

(** The files [os.walk] comes by, in its order, by their paths relative
    to the scanned directory. *)
Definition walked (sc : FilesReport.scan) : list string :=
  flat_map (fun visit => map (FilesReport.relpath (fst visit)) (snd visit))
           (FilesReport.s_walk sc).

(** The sizes of these records, added up. *)
Definition sizes (rs : list (string * string * Z)) : Z :=
  fold_right (fun r acc => snd r + acc) 0 rs.

(** The record is the one the generator writes for the file at its path
    under [directory]: the file's size, and its fingerprint, which is not
    the error text. *)
Definition describes (fs : filesystem) (directory : string)
    (r : string * string * Z) : Prop :=
  snd (fst r) ≠ "error"%string
  ∧ snd (fst r) = FilesReport.calculate_fast_hash fs (join directory (fst (fst r)))
  ∧ getsize fs (join directory (fst (fst r))) = Some (snd r).

(** What the scan has gathered so far, as records that describe files. *)
Definition gathered (fs : filesystem) (directory : string)
    (acc : FilesReport.scanned) (rs : list (string * string * Z)) : Prop :=
  FilesReport.sc_files acc = map to_record rs
  ∧ FilesReport.sc_processed acc = Z.of_nat (length rs)
  ∧ FilesReport.sc_total_size acc = sizes rs
  ∧ Forall (describes fs directory) rs.

Definition is_ok (s : Main.status) : Prop :=
  match s with Main.StOK _ => True | _ => False end.

End Plan.

(** ** Concrete disks, manifests and runs *)
Module Scenario.
Import OS Main FilesReport.

Definition bytes (s : string) : list byte := list_byte_of_string s.

Definition file_new : file := mkFile (bytes "new") "1.5" true.
Definition file_old : file := mkFile (bytes "old") "0.5" true.

(** A source tree with one file and an older copy already installed. *)
Definition disk : gmap string file :=
  <["src/a" := file_new]> (<["dl/a" := file_old]> ∅).

(** A file of 65537 bytes, all but the last one fixed. *)
Definition mid_file (last : byte) : file :=
  mkFile (replicate head_len "a"%byte ++ [last]) "1.5" true.

(** An installed file that cannot be opened, and a manifest whose record
    for it carries the text [error] as its hash. *)
Definition disk_unreadable : gmap string file :=
  {["dl/a" := mkFile (bytes "old") "0.5" false]}.

Definition manifest_error_hash : Py.pyval :=
  report [record "a" "error" 3].


(** The manifest [files_report.py] writes for the source tree of [disk]. *)
Definition manifest_a : Py.pyval :=
  report [record "a" (FilesReport.calculate_fast_hash disk "src/a") 3].

(** The same, with a size one byte for a file of three. *)
Definition manifest_short : Py.pyval :=
  report [record "a" (FilesReport.calculate_fast_hash disk "src/a") 1].

(** No trouble from the operating system; files written get this stamp. *)
Definition calm (stamp : string) (i : nat) : os_events :=
  mkOs false None stamp.

Definition entry_a : entry := ("src/a", "dl/a", 3)%string.

(** The copy is stamped later than the source was. *)
Definition session_later : session :=
  start_file_check (Some manifest_a) (calm "2.5") disk "src" "dl".

(** The copy happens to get the very stamp of the source. *)
Definition session_same : session :=
  start_file_check (Some manifest_a) (calm "1.5") disk "src" "dl".

(** The source tree has lost the file. *)
Definition session_missing : session :=
  start_file_check (Some manifest_a) (calm "1.5") (delete "src/a" disk)
    "src" "dl".

Definition session_short : session :=
  start_file_check (Some manifest_short) (calm "1.5") disk "src" "dl".

(** The world [process_queue] starts from in [session_later]. *)
Definition queued_a : world :=
  mkWorld disk
    (mkDownloader [entry_a] None manifest_a
       [record "a" (FilesReport.calculate_fast_hash disk "src/a") 3]
       "src" "dl" StPreparing (TsFound 1 1 3) 1 1 0 0 1 3).

(** The world the first iteration of the loop starts in: the totals
    set, the entry popped. *)
Definition started_a : world :=
  mkWorld disk
    (set_download_queue []
       (set_downloaded_bytes 0 (set_total_size_bytes 3 (w_dl queued_a)))).

Definition queued_short : world :=
  mkWorld disk
    (mkDownloader [("src/a", "dl/a", 1)%string] None manifest_short
       [record "a" (FilesReport.calculate_fast_hash disk "src/a") 1]
       "src" "dl" StPreparing (TsFound 1 1 1) 1 1 0 0 1 1).

Definition run_later : run := process_queue (calm "2.5") queued_a.
Definition run_same : run := process_queue (calm "1.5") queued_a.
Definition run_missing : run :=
  process_queue (calm "1.5") (mkWorld (delete "src/a" disk) (w_dl queued_a)).
Definition run_short : run := process_queue (calm "1.5") queued_short.

(** The destination is an empty file. *)
Definition empty_at (p : string) (w : world) : bool :=
  match w_fs w !! p with
  | Some f => match f_data f with [] => true | _ => false end
  | None => false
  end.

(** The engine as [start_file_check] creates it. *)
Definition fresh : downloader := init "src" "dl".

(** An installed file that opens and whose reads raise. *)
Definition disk_read_raises : gmap string file :=
  {["dl/a" := mkFile (bytes "old") "0.5" ReadRaises]}.

(** The record of [manifest_a], by its path, hash and size. *)
Definition records_a : list (string * string * Z) :=
  [("a"%string, FilesReport.calculate_fast_hash disk "src/a", 3)].

(** What [os.walk] finds under [src] on [disk], and what the generator
    makes of it. *)
Definition scan_src : scan := mkScan true [(""%string, ["a"%string])].

Definition scanned_src : scanned :=
  fold_left (scan_dir disk "src") (s_walk scan_src) (mkScanned [] Hashlib.new 0 0).

Definition report_src : Py.pyval := report (sc_files scanned_src).

Definition statistics_src : statistics :=
  mkStatistics (sc_processed scanned_src) (sc_total_size scanned_src)
    (if 0 <? sc_processed scanned_src
     then Hashlib.hexdigest (sc_hasher scanned_src) else "").

(** A source tree with a second file, which opens and whose reads
    raise, and what the generator makes of it. *)
Definition disk_mixed : gmap string file :=
  <["src/b" := mkFile (bytes "bad") "1.5" ReadRaises]> disk.

Definition scan_mixed : scan :=
  mkScan true [(""%string, ["a"%string; "b"%string])].

Definition scanned_mixed : scanned :=
  fold_left (scan_dir disk_mixed "src") (s_walk scan_mixed)
            (mkScanned [] Hashlib.new 0 0).

Definition report_mixed : Py.pyval := report (sc_files scanned_mixed).

Definition statistics_mixed : statistics :=
  mkStatistics (sc_processed scanned_mixed) (sc_total_size scanned_mixed)
    (if 0 <? sc_processed scanned_mixed
     then Hashlib.hexdigest (sc_hasher scanned_mixed) else "").


(** The engine as constructed, with one entry of size zero queued. *)
Definition queued_zero : world :=
  mkWorld disk (set_download_queue [("src/a", "dl/a", 0)%string] fresh).

End Scenario.

(** ** What a queue entry may change *)
Module Inv.
Import OS Main.

(** The fields of the engine that [process_queue] only reads once the
    loop runs: all but the current entry, the two texts and the byte
    counter. *)
Definition kept (d d' : downloader) : Prop :=
  download_queue d' = download_queue d
  ∧ manifest d' = manifest d
  ∧ files_to_download d' = files_to_download d
  ∧ source_folder d' = source_folder d
  ∧ download_folder d' = download_folder d
  ∧ total_files d' = total_files d
  ∧ processed_files d' = processed_files d
  ∧ total_size_bytes d' = total_size_bytes d
  ∧ files_requiring_download d' = files_requiring_download d
  ∧ size_requiring_download d' = size_requiring_download d.

(** The bytes of the file at [p], none when there is no file. *)
Definition data_of (fs : filesystem) (p : string) : list byte :=
  match fs !! p with
  | Some f => f_data f
  | None => []
  end.

(** While the copy loop runs: [pre] has been appended to the bytes
    [data0] the destination held when the loop started. *)
Definition copying (ev : os_events) (destination : string) (w : world)
    (data0 : list byte) (r : access) (pre : list byte) (x : world) : Prop :=
  kept (w_dl w) (w_dl x)
  ∧ w_fs x = <[destination := mkFile (data0 ++ pre) (now ev) r]> (w_fs w)
  ∧ downloaded_bytes (w_dl x)
    = downloaded_bytes (w_dl w) + Z.of_nat (length pre).

(** What holds of every world [x] an iteration started in [w] for the
    entry [e] passes through. *)
Definition during (w : world) (e : entry) (x : world) : Prop :=
  kept (w_dl w) (w_dl x)
  ∧ (∀ p, p ≠ e_destination e → w_fs x !! p = w_fs w !! p)
  ∧ (w_fs x !! e_destination e = w_fs w !! e_destination e
     ∨ w_fs x !! e_destination e = None
     ∨ ∃ f, w_fs x !! e_destination e = Some f
            ∧ f_data f `prefix_of` data_of (w_fs w) (e_source e))
  ∧ downloaded_bytes (w_dl w) ≤ downloaded_bytes (w_dl x)
    ≤ downloaded_bytes (w_dl w)
      + Z.of_nat (length (data_of (w_fs w) (e_source e))).

Definition failed (o : outcome) : bool :=
  match o with Installed => false | _ => true end.



End Inv.

(** * Properties *)

(** ** The fingerprint *)
Section Fingerprint.
Import OS Hashlib.

(** The digests [hashlib.blake2b(m, digest_size=32).hexdigest()] gives
    for the empty message, for [b"abc"] and for 129 bytes [b"a"]. *)
Example blake2b_vectors :
  hexdigest []
  = "0e5751c026e543b2e8ab2eb06099daa1d1e5df47778f7787faab45cdf12fe3a8"%string
  ∧ hexdigest (encode "abc")
    = "bddd813c634239723171ef3fee98579b94964e3bb1cb3e427262c8c068d52319"%string
  ∧ hexdigest (replicate 129 "a"%byte)
    = "2f64744a6de0d2c0b56e64cf6e29a5aaa255010d415d51c75ccc82f73dccd865"%string.
Proof. split; [|split]; vm_compute; reflexivity. Qed.

Lemma head_len_val : Z.of_nat head_len = 65536.
Proof. unfold head_len. lia. Qed.

Opaque head_len.

Lemma hash_file_same fs p : FilesReport.hash_file fs p = Main.hash_file fs p.
Proof. reflexivity. Qed.

Lemma readable_access f : f_readable f = true → f_access f = Readable.
Proof. unfold f_readable. by destruct (f_access f). Qed.

(** The run of the [try] block on a readable file. *)
Lemma hash_file_readable (fs : gmap string file) p f :
  fs !! p = Some f → f_readable f = true →
  Main.hash_file fs p =
    let data := f_data f in
    let size := length data in
    let big := 131072 <? Z.of_nat size in
    Some (take head_len data
          ++ (if big then drop (size - head_len) data else [])
          ++ encode (Py.str_int (Z.of_nat size)) ++ encode (f_mtime f),
          mkReader data
            (if big then size else length (take head_len data))
            ((0%nat, length (take head_len data))
             :: if big then [((size - head_len)%nat, head_len)] else [])
            false).
Proof.
  intros Hp Hr. pose proof head_len_val as Hh.
  unfold Main.hash_file, open_rb, getsize, st_mtime.
  rewrite Hp, (readable_access f Hr). cbn.
  destruct (131072 <? Z.of_nat (length (f_data f))) eqn:Hbig; cbn.
  - apply Z.ltb_lt in Hbig.
    unfold seek_end. cbn.
    destruct (Nat.leb_spec head_len (length (f_data f))) as [Hle|Hlt]; [|lia].
    cbn. unfold update, new. cbn. rewrite !drop_0, <- !app_assoc.
    repeat f_equal; rewrite ?length_drop; lia.
  - unfold update, new. cbn. rewrite !drop_0, <- !app_assoc. reflexivity.
Qed.

End Fingerprint.

Section FingerprintClaims.
Import OS Hashlib.

Lemma calculate_fast_hash_readable (fs : gmap string file) p f :
  fs !! p = Some f → f_readable f = true →
  Main.calculate_fast_hash fs p = Spec.fingerprint f.
Proof.
  intros Hp Hr. unfold Main.calculate_fast_hash.
  rewrite (hash_file_readable fs p f Hp Hr). cbn zeta.
  unfold Spec.fingerprint, hexdigest, encode. reflexivity.
Qed.

(** C3. The manifest generator and the sync engine compute the same
    fingerprint, and on every readable file it is the lowercase hex of
    the 256-bit hash of the first 65536 bytes, then the last 65536 bytes
    exactly when the size exceeds 131072, then the size in decimal, then
    the modification time as printed. *)
Theorem fingerprint_is_sampled_hash (fs : gmap string file) p :
  FilesReport.calculate_fast_hash fs p = Main.calculate_fast_hash fs p
  ∧ ∀ f, fs !! p = Some f → f_readable f = true →
         Main.calculate_fast_hash fs p = Spec.fingerprint f.
Proof.
  split.
  - unfold FilesReport.calculate_fast_hash, Main.calculate_fast_hash.
    by rewrite hash_file_same.
  - intros f Hp Hr. by apply calculate_fast_hash_readable.
Qed.

(** C4, as the code has it. Fingerprinting a readable file serves one
    read of the whole content when the size is at most 65536; only the
    first 65536 bytes when the size is above 65536 and at most 131072;
    and only the first and the last 65536 bytes when it is larger. *)
Theorem fingerprint_reads (fs : gmap string file) p f :
  fs !! p = Some f → f_readable f = true →
  ∃ h r, Main.hash_file fs p = Some (h, r) ∧
    let size := length (f_data f) in
    (Z.of_nat size ≤ 65536 → r_reads r = [(0, size)%nat])
    ∧ (65536 < Z.of_nat size ≤ 131072 → r_reads r = [(0, head_len)%nat])
    ∧ (131072 < Z.of_nat size →
       r_reads r = [(0, head_len); (size - head_len, head_len)]%nat).
Proof.
  intros Hp Hr. pose proof head_len_val as Hh.
  rewrite (hash_file_readable fs p f Hp Hr). cbn zeta.
  eexists _, _. split; [reflexivity|]. cbn [r_reads].
  rewrite length_take.
  repeat split; intros Hsz.
  - destruct (Z.ltb_spec 131072 (Z.of_nat (length (f_data f)))); [lia|].
    do 2 f_equal. lia.
  - destruct (Z.ltb_spec 131072 (Z.of_nat (length (f_data f)))); [lia|].
    do 2 f_equal. lia.
  - destruct (Z.ltb_spec 131072 (Z.of_nat (length (f_data f)))); [|lia].
    do 2 f_equal. lia.
Qed.

End FingerprintClaims.

Section FingerprintExamples.
Import OS Hashlib Scenario.

Lemma fingerprint_is_sampled_hash_witness :
  (disk !! "src/a" = Some file_new ∧ f_readable file_new = true)
  ∧ FilesReport.calculate_fast_hash disk "src/a"
    = Main.calculate_fast_hash disk "src/a"
  ∧ Main.calculate_fast_hash disk "src/a" = Spec.fingerprint file_new.
Proof.
  assert (H1 : disk !! "src/a" = Some file_new) by (vm_compute; reflexivity).
  assert (H2 : f_readable file_new = true) by reflexivity.
  split; [exact (conj H1 H2)|]. split.
  - exact (proj1 (fingerprint_is_sampled_hash disk "src/a")).
  - exact (proj2 (fingerprint_is_sampled_hash disk "src/a") file_new H1 H2).
Defined.

Lemma fingerprint_reads_witness :
  (disk !! "src/a" = Some file_new ∧ f_readable file_new = true)
  ∧ ∃ h r, Main.hash_file disk "src/a" = Some (h, r) ∧
      let size := length (f_data file_new) in
      (Z.of_nat size ≤ 65536 → r_reads r = [(0, size)%nat])
      ∧ (65536 < Z.of_nat size ≤ 131072 → r_reads r = [(0, head_len)%nat])
      ∧ (131072 < Z.of_nat size →
         r_reads r = [(0, head_len); (size - head_len, head_len)]%nat).
Proof.
  split; [split; vm_compute; reflexivity|].
  apply (fingerprint_reads disk "src/a" file_new); vm_compute; reflexivity.
Defined.

(** C4, as stated, fails on a file of 65537 bytes: its size is at most
    131072, yet only 65536 of its bytes are read, and changing the last
    byte leaves the fingerprint unchanged. *)
Lemma fingerprint_skips_tail_byte :
  let f1 := mid_file "x"%byte in
  let f2 := mid_file "y"%byte in
  Z.of_nat (length (f_data f1)) ≤ 131072
  ∧ (∃ h r, Main.hash_file {["f" := f1]} "f" = Some (h, r)
            ∧ Spec.bytes_read r ≠ length (f_data f1))
  ∧ f_data f1 ≠ f_data f2
  ∧ Main.calculate_fast_hash {["f" := f1]} "f"
    = Main.calculate_fast_hash {["f" := f2]} "f".
Proof.
  pose proof head_len_val as Hh.
  assert (Hlen : ∀ c, length (f_data (mid_file c)) = S head_len).
  { intros c. cbn. rewrite length_app, length_replicate. cbn. lia. }
  cbn zeta. split; [rewrite Hlen; lia|]. split; [|split].
  - rewrite (hash_file_readable _ "f" (mid_file "x"))
      by (try apply lookup_singleton_eq; reflexivity).
    cbn zeta. eexists _, _. split; [reflexivity|].
    unfold Spec.bytes_read. cbn [r_reads]. rewrite Hlen, length_take, Hlen.
    destruct (Z.ltb_spec 131072 (Z.of_nat (S head_len))); [lia|].
    cbn [fold_right snd]. lia.
  - cbn. intros Heq. apply app_inv_head in Heq. discriminate.
  - transitivity (Spec.fingerprint (mid_file "x"));
      [apply calculate_fast_hash_readable;
         [apply lookup_singleton_eq|reflexivity]|].
    symmetry. transitivity (Spec.fingerprint (mid_file "y"));
      [apply calculate_fast_hash_readable;
         [apply lookup_singleton_eq|reflexivity]|].
    unfold Spec.fingerprint. cbn zeta. rewrite !Hlen.
    destruct (Z.ltb_spec 131072 (Z.of_nat (S head_len))); [lia|].
    cbn [f_data f_mtime mid_file].
    rewrite !take_app_length' by (by rewrite length_replicate).
    reflexivity.
Qed.

End FingerprintExamples.

(** ** The planner *)
Section Planner.
Import OS Main Plan.



End Planner.

Section PlannerClaims.
Import OS Main Plan.

Lemma dict_get_truthy items k v :
  Py.dict_get items k = Some v → Py.truthy (Py.VDict items) = true.
Proof. by destruct items. Qed.

Lemma check_files_rejects loaded fs d :
  (manifest_files loaded = None
   ∨ ∃ fl, manifest_files loaded = Some fl
           ∧ (Py.truthy fl = false ∨ ∃ e, Py.len fl = inl e)) →
  rejected (check_files loaded fs d).
Proof.
  unfold rejected, check_files, load_manifest.
  destruct loaded as [m|]; [|intros _; cbn; done].
  destruct m as [| | | | |items]; try (intros _; cbn; done).
  cbn [manifest_files Py.get].
  destruct (Py.dict_get items "files") as [fl|] eqn:Hfl; cbn [from_option id].
  - intros [?|(fl' & [= <-] & Hbad)]; [done|].
    destruct (Py.len fl) as [e|n] eqn:Hlen; [cbn; done|].
    destruct Hbad as [Hf|[e He]]; [|congruence].
    rewrite (dict_get_truthy _ _ _ Hfl). cbn [negb Py.get].
    rewrite Hfl. cbn [from_option id]. rewrite Hf. cbn. done.
  - intros _. cbn [Py.len].
    destruct items as [|kv items]; [cbn; done|].
    cbn [Py.truthy negb Py.get]. rewrite Hfl. cbn. done.
Qed.

(** From a manifest whose ["files"] is a non-empty list, [check_files]
    goes into the loop over its records. *)
Lemma check_files_enters_loop loaded fs d records :
  manifest_files loaded = Some (Py.VList records) → records ≠ [] →
  ∃ d0, check_files loaded fs d = check_loop fs records [] d0
        ∧ files_to_download d0 = []
        ∧ download_folder d0 = download_folder d.
Proof.
  intros Hfl Hne. unfold check_files, load_manifest.
  destruct loaded as [[| | | | |items]|]; try done.
  cbn [manifest_files] in Hfl. cbn [Py.get]. rewrite Hfl.
  cbn [from_option id Py.len].
  rewrite (dict_get_truthy _ _ _ Hfl). cbn [negb Py.get]. rewrite Hfl.
  cbn [from_option id Py.len Py.iter].
  destruct records as [|v records]; [done|]. cbn [Py.truthy negb].
  eexists. split; [reflexivity|]. done.
Qed.

Lemma calculate_fast_hash_unreadable (fs : gmap string file) p f :
  fs !! p = Some f → f_readable f = false →
  calculate_fast_hash fs p = "error"%string.
Proof.
  intros Hp Hr. unfold calculate_fast_hash, hash_file, open_rb.
  rewrite Hp. unfold f_readable in Hr. by destruct (f_access f).
Qed.

(** One iteration decides as §4.3 says, as long as the record's hash is
    not the text [error]. *)
Lemma check_one_plan (fs : gmap string file) r d :
  snd (fst r) ≠ "error"%string →
  let a := planned fs (download_folder d) r in
  ∃ d', check_one fs (to_record r) d = (d', None)
    ∧ status_text d'
      = shown_as a (name (join (download_folder d) (fst (fst r))))
    ∧ files_to_download d'
      = files_to_download d ++ (if fetches a then [to_record r] else [])
    ∧ download_folder d' = download_folder d.
Proof.
  destruct r as [[p h] z]. cbn [fst snd]. intros Hh.
  unfold planned, plan_one, check_one, to_record, FilesReport.record.
  cbn [fst snd Py.subscript Py.get Py.dict_get String.eqb Ascii.eqb
       Bool.eqb from_option id].
  unfold exists_.
  destruct (fs !! join (download_folder d) p) as [f|] eqn:Hf; cbn [negb].
  - destruct (f_readable f) eqn:Hr.
    + rewrite (calculate_fast_hash_readable fs _ f Hf Hr).
      cbn [Py.eq_str]. rewrite String.eqb_sym.
      destruct (String.eqb (Spec.fingerprint f) h); cbn;
        eexists; (split; [reflexivity|]); cbn; by rewrite ?app_nil_r.
    + rewrite (calculate_fast_hash_unreadable fs _ f Hf Hr).
      cbn [Py.eq_str]. apply String.eqb_neq in Hh. rewrite Hh. cbn.
      eexists; (split; [reflexivity|]); done.
  - cbn. eexists; (split; [reflexivity|]); done.
Qed.

Lemma check_loop_plan (fs : gmap string file) rs : ∀ shown d,
  Forall (λ r, snd (fst r) ≠ "error"%string) rs →
  let root := download_folder d in
  let ck := check_loop fs (map to_record rs) shown d in
  c_value ck
  = inr (files_to_download d
         ++ map to_record
              (List.filter (λ r, fetches (planned fs root r)) rs))
  ∧ c_shown ck
    = shown ++ map (λ r, shown_as (planned fs root r)
                           (name (join root (fst (fst r))))) rs.
Proof.
  induction rs as [|r rs IH]; intros shown d Hall; cbn zeta.
  - cbn. by rewrite !app_nil_r.
  - apply Forall_cons in Hall as [Hr Hall].
    destruct (check_one_plan fs r d Hr) as (d' & Hone & Hst & Hfiles & Hroot).
    cbn [map check_loop]. rewrite Hone.
    destruct (IH (shown ++ [status_text d']) d' Hall) as [Hv Hs].
    rewrite Hroot in Hv, Hs. split.
    + rewrite Hv, Hfiles. cbn [List.filter].
      destruct (fetches (planned fs (download_folder d) r));
        cbn; by rewrite <- ?app_assoc, ?app_nil_r.
    + rewrite Hs, Hst, <- app_assoc. reflexivity.
Qed.

(** The planner agrees with §4.3 on every manifest none of whose records
    carries the text [error] as its hash: one text is shown per record,
    in manifest order, and the returned list holds, in manifest order,
    the records whose decision is a fetch. *)
Lemma check_files_plan (fs : gmap string file) rs d :
  rs ≠ [] → Forall (λ r, snd (fst r) ≠ "error"%string) rs →
  let root := download_folder d in
  let ck := check_files (Some (FilesReport.report (map to_record rs))) fs d in
  c_value ck
  = inr (map to_record (List.filter (λ r, fetches (planned fs root r)) rs))
  ∧ c_shown ck
    = map (λ r, shown_as (planned fs root r)
                  (name (join root (fst (fst r))))) rs.
Proof.
  intros Hne Hall. cbn zeta.
  destruct (check_files_enters_loop
              (Some (FilesReport.report (map to_record rs))) fs d
              (map to_record rs)) as (d0 & -> & Hnil & Hroot).
  { reflexivity. }
  { by destruct rs. }
  destruct (check_loop_plan fs rs [] d0 Hall) as [Hv Hs].
  rewrite Hroot, Hnil in Hv. rewrite Hroot in Hs. done.
Qed.


End PlannerClaims.

Section PlannerExamples.
Import OS Main Plan Scenario.



(** C5 at the input where the code departs from it: the installed file
    exists and cannot be read, so fingerprinting fails and §4.3 asks for
    a fetch; the record's hash is the text [error], which is also what
    [calculate_fast_hash] returns on failure, and the record is skipped. *)
Theorem unreadable_file_with_error_hash_is_skipped :
  let ck := check_files (Some manifest_error_hash) disk_unreadable fresh in
  exists_ disk_unreadable "dl/a" = true
  ∧ hash_file disk_unreadable "dl/a" = None
  ∧ plan_one disk_unreadable "dl" "a" "error" = Fetch ReadError
  ∧ c_shown ck = [StOK "a"]
  ∧ c_value ck = inr [].
Proof. cbn zeta. repeat split; vm_compute; reflexivity. Qed.

End PlannerExamples.

(** ** The transfer loop *)
Section Transfer.
Import OS Main Inv.

Lemma kept_refl d : kept d d.
Proof. by repeat split. Qed.

Lemma kept_trans d1 d2 d3 : kept d1 d2 → kept d2 d3 → kept d1 d3.
Proof. unfold kept. intros; destruct_and!; repeat split; congruence. Qed.

Ltac kept_setter := unfold kept; cbn; intros; destruct_and?; repeat split; congruence.

Lemma kept_status d d' s : kept d d' → kept d (set_status_text s d').
Proof. kept_setter. Qed.

Lemma kept_total_status d d' s :
  kept d d' → kept d (set_total_status_text s d').
Proof. kept_setter. Qed.

Lemma kept_current d d' c : kept d d' → kept d (set_current_download c d').
Proof. kept_setter. Qed.

Lemma kept_downloaded d d' n : kept d d' → kept d (set_downloaded_bytes n d').
Proof. kept_setter. Qed.

Create HintDb kept.

#[local] Hint Resolve kept_refl kept_status kept_total_status kept_current
  kept_downloaded : kept.

Lemma concat_chunks_prefix n data : ∀ fuel,
  concat (chunks_of fuel n data) `prefix_of` data.
Proof.
  intros fuel. revert data.
  induction fuel as [|fuel IH]; intros data; cbn [chunks_of concat].
  - apply prefix_nil.
  - destruct data as [|b data]; [done|].
    rewrite <- (take_drop n (b :: data)) at 3.
    apply prefix_app, IH.
Qed.

Lemma concat_chunks n data : ∀ fuel,
  (0 < n)%nat → (length data ≤ fuel)%nat →
  concat (chunks_of fuel n data) = data.
Proof.
  intros fuel Hn. revert data.
  induction fuel as [|fuel IH]; intros data Hlen; cbn [chunks_of concat].
  - destruct data; [done|cbn in Hlen; lia].
  - destruct data as [|b data]; [done|]. cbn [concat].
    rewrite IH; [apply take_drop|].
    rewrite length_drop. cbn in *. lia.
Qed.

Lemma write_opened ev dst chunk (fs : gmap string file) data0 r :
  fs !! dst = Some (mkFile data0 (now ev) r) →
  write (now ev) dst chunk fs = <[dst := mkFile (data0 ++ chunk) (now ev) r]> fs.
Proof. intros H. unfold write. by rewrite H. Qed.

(** The copy loop: every world it passes through, and the one it ends
    in, holds at the destination the bytes it started with followed by
    a prefix of the chunks; all of them when no exception broke it. *)
Lemma copy_chunks_copying ev dst total chunks : ∀ k dl w data0 r,
  w_fs w !! dst = Some (mkFile data0 (now ev) r) →
  ∀ tr wf res, copy_chunks ev dst total k chunks dl w = (tr, wf, res) →
  Forall (λ x, ∃ pre, pre `prefix_of` concat chunks
                      ∧ copying ev dst w data0 r pre x) tr
  ∧ ∃ pre, pre `prefix_of` concat chunks
           ∧ copying ev dst w data0 r pre wf
           ∧ (res = None → pre = concat chunks).
Proof.
  induction chunks as [|chunk chunks IH]; intros k dl w data0 r Hdst tr wf res.
  - cbn. intros [= <- <- <-]. split; [constructor|].
    exists []. split; [done|]. split; [|done].
    unfold copying. rewrite app_nil_r. split; [apply kept_refl|].
    split; [by rewrite insert_id|cbn; lia].
  - cbn [copy_chunks].
    destruct (fault_at ev (S k)).
    { intros [= <- <- <-]. split; [constructor|].
      exists []. split; [apply prefix_nil|]. split; [|done].
      unfold copying. rewrite app_nil_r. split; [apply kept_refl|].
      split; [by rewrite insert_id|cbn; lia]. }
    rewrite (write_opened ev dst chunk _ data0 r Hdst).
    set (fs1 := <[dst := mkFile (data0 ++ chunk) (now ev) r]> (w_fs w)).
    set (d1 := set_downloaded_bytes _ (w_dl w)).
    assert (Hone : ∀ d', kept (w_dl w) d' →
              downloaded_bytes d' = downloaded_bytes d1 →
              ∃ pre, pre `prefix_of` concat (chunk :: chunks)
                     ∧ copying ev dst w data0 r pre (mkWorld fs1 d')).
    { intros d' Hk Hd. exists chunk. split; [by apply prefix_app_r|].
      split; [exact Hk|]. split; [done|]. cbn [w_dl]. rewrite Hd. done. }
    destruct ((total =? 0) || (total_size_bytes d1 =? 0)).
    { intros [= <- <- <-].
      destruct (Hone d1) as (pre & Hpre & Hc);
        [subst d1; auto with kept|done|].
      split; [repeat constructor; eauto|].
      exists pre. split; [exact Hpre|]. split; [exact Hc|done]. }
    set (w2 := mkWorld fs1 (set_status_text _ d1)).
    destruct (copy_chunks ev dst total (S k) chunks
                (dl + Z.of_nat (length chunk)) w2) as [[tr' wf'] res'] eqn:Hrec.
    intros [= <- <- <-].
    assert (Hdst2 : w_fs w2 !! dst
                    = Some (mkFile (data0 ++ chunk) (now ev) r))
      by apply lookup_insert_eq.
    destruct (IH (S k) _ w2 (data0 ++ chunk) r Hdst2 tr' wf' res' Hrec)
      as [Htr Hwf].
    assert (Hlift : ∀ x pre,
              pre `prefix_of` concat chunks →
              copying ev dst w2 (data0 ++ chunk) r pre x →
              (chunk ++ pre) `prefix_of` concat (chunk :: chunks)
              ∧ copying ev dst w data0 r (chunk ++ pre) x).
    { intros x pre Hpre (Hk & Hfs & Hd). split; [by apply prefix_app|].
      split; [|split].
      - eapply kept_trans; [|exact Hk]. subst w2 d1. cbn. auto with kept.
      - rewrite Hfs. subst w2 fs1. cbn. rewrite insert_insert_eq.
        by rewrite app_assoc.
      - rewrite Hd. subst w2 d1. cbn. rewrite length_app. lia. }
    split.
    + constructor; [apply Hone; [subst d1; auto with kept|done]|].
      constructor; [apply Hone; [subst d1; auto with kept|done]|].
      eapply Forall_impl; [exact Htr|].
      intros x (pre & Hpre & Hc). exists (chunk ++ pre). by apply Hlift.
    + destruct Hwf as (pre & Hpre & Hc & Hall). exists (chunk ++ pre).
      destruct (Hlift wf' pre Hpre Hc) as [Hp' Hc'].
      split; [exact Hp'|]. split; [exact Hc'|].
      intros Hnone. cbn. by rewrite Hall.
Qed.

Ltac forall_hyps :=
  repeat (apply Forall_cons_2; [solve [eauto]|]); apply Forall_nil_2.

Lemma during_start w e d :
  kept (w_dl w) d →
  downloaded_bytes d = downloaded_bytes (w_dl w) →
  during w e (mkWorld (w_fs w) d).
Proof.
  intros Hk Hd. split; [exact Hk|]. split; [done|]. split; [by left|].
  cbn. lia.
Qed.

Lemma data_of_after_open ev (fs : gmap string file) src dst :
  data_of (open_wb (now ev) dst fs) src `prefix_of` data_of fs src
  ∧ (src ≠ dst → data_of (open_wb (now ev) dst fs) src = data_of fs src).
Proof.
  unfold data_of, open_wb. destruct (decide (dst = src)) as [->|Hne].
  - rewrite lookup_insert_eq. split; [apply prefix_nil|done].
  - rewrite lookup_insert_ne by done. done.
Qed.

(** The [with] block of the local copy. *)
Lemma copy_file_during ev e total w tr wf res :
  copy_file ev (e_source e) (e_destination e) total w = (tr, wf, res) →
  Forall (during w e) tr
  ∧ during w e wf
  ∧ (res = None → e_source e ≠ e_destination e →
     w_fs wf !! e_destination e
     = Some (mkFile (data_of (w_fs w) (e_source e)) (now ev) true)).
Proof.
  unfold copy_file.
  assert (Hsame : during w e w).
  { destruct w. apply during_start; [apply kept_refl|done]. }
  destruct (fault_at ev 0).
  { intros [= <- <- <-]. split; [constructor|]. by split. }
  destruct (open_rb (w_fs w) (e_source e)) as [src|].
  2: { intros [= <- <- <-]. split; [constructor|]. by split. }
  cbn [w_fs w_dl].
  set (w1 := mkWorld (open_wb (now ev) (e_destination e) (w_fs w)) (w_dl w)).
  destruct (r_raises src).
  { intros [= <- <- <-].
    assert (Hw1 : during w e w1).
    { split; [apply kept_refl|]. split; [|split].
      - intros p Hp. subst w1. unfold open_wb. cbn.
        by rewrite lookup_insert_ne.
      - right. right. eexists. subst w1. unfold open_wb. cbn.
        rewrite lookup_insert_eq. split; [reflexivity|apply prefix_nil].
      - subst w1. cbn. lia. }
    split; [by constructor|]. by split. }
  change (match open_wb (now ev) (e_destination e) (w_fs w) !! e_source e with
          | Some f => f_data f
          | None => []
          end) with (data_of (w_fs w1) (e_source e)).
  set (data := data_of (w_fs w1) (e_source e)).
  destruct (copy_chunks ev (e_destination e) total 0
              (chunks_of (length data) chunk_size data) 0 w1)
    as [[tr' wf'] res'] eqn:Hcopy.
  intros [= <- <- <-].
  assert (Hdst : w_fs w1 !! e_destination e = Some (mkFile [] (now ev) true))
    by apply lookup_insert_eq.
  destruct (copy_chunks_copying _ _ _ _ _ _ _ _ _ Hdst _ _ _ Hcopy)
    as [Htr Hwf].
  destruct (data_of_after_open ev (w_fs w) (e_source e) (e_destination e))
    as [Hpre Heq].
  fold data in Hpre.
  assert (Hlift : ∀ x pre,
            pre `prefix_of` concat (chunks_of (length data) chunk_size data) →
            copying ev (e_destination e) w1 [] true pre x → during w e x).
  { intros x pre Hp (Hk & Hfs & Hd).
    assert (Hpd : pre `prefix_of` data_of (w_fs w) (e_source e)).
    { etrans; [exact Hp|]. etrans; [apply concat_chunks_prefix|exact Hpre]. }
    split; [exact Hk|]. split; [|split].
    - intros p Hp'. rewrite Hfs. subst w1. unfold open_wb. cbn.
      by rewrite !lookup_insert_ne.
    - right. right. eexists. rewrite Hfs, lookup_insert_eq.
      split; [reflexivity|]. exact Hpd.
    - rewrite Hd. subst w1. cbn. apply prefix_length in Hpd. lia. }
  split; [|split].
  - constructor.
    + apply (Hlift w1 []); [apply prefix_nil|].
      split; [apply kept_refl|]. split; [|cbn; lia].
      subst w1. unfold open_wb. cbn. by rewrite insert_insert_eq.
    + eapply Forall_impl; [exact Htr|]. intros x (pre & Hp & Hc).
      by apply (Hlift x pre).
  - destruct Hwf as (pre & Hp & Hc & _). by apply (Hlift wf' pre).
  - intros -> Hne. destruct Hwf as (pre & Hp & (_ & Hfs & _) & Hall).
    rewrite Hfs, lookup_insert_eq, (Hall eq_refl). cbn [app].
    rewrite concat_chunks; [|unfold chunk_size; lia|done].
    subst data w1. cbn [w_fs]. by rewrite (Heq Hne).
Qed.

Lemma unlink_gone (fs : gmap string file) p : unlink_if_exists p fs !! p = None.
Proof.
  unfold unlink_if_exists, exists_.
  destruct (fs !! p) eqn:H; [apply lookup_delete_eq|exact H].
Qed.

Lemma unlink_other (fs : gmap string file) p q :
  q ≠ p → unlink_if_exists p fs !! q = fs !! q.
Proof.
  intros Hne. unfold unlink_if_exists.
  destruct (exists_ fs p); [by apply lookup_delete_ne|done].
Qed.


(** A world with the destination deleted and a new status text. *)
Lemma during_unlinked w e x s :
  during w e x →
  during w e (mkWorld (unlink_if_exists (e_destination e) (w_fs x))
                      (set_status_text s (w_dl x))).
Proof.
  intros (Hk & Hfr & _ & Hd). split; [auto with kept|]. split; [|split].
  - intros p Hp. cbn. rewrite unlink_other by done. by apply Hfr.
  - right. left. apply unlink_gone.
  - exact Hd.
Qed.

(** One iteration of the queue loop: what every world it passes through
    satisfies, and what its way of ending says of the destination. *)
Lemma process_entry_during ev e w tr w' o :
  process_entry ev e w = (tr, w', o) →
  Forall (during w e) tr
  ∧ during w e w'
  ∧ (match o with
     | CopyFailed _ | VerifyFailed _ => w_fs w' !! e_destination e = None
     | Installed =>
         verify (e_destination e) w' = None
         ∧ (e_source e ≠ e_destination e →
            w_fs w' !! e_destination e
            = Some (mkFile (data_of (w_fs w) (e_source e)) (now ev) true))
     | SourceMissing => w_fs w !! e_source e = None ∧ w_fs w' = w_fs w
     | CriticalError _ => w_fs w' = w_fs w
     end).
Proof.
  unfold process_entry. cbn [w_fs w_dl].
  set (d0 := set_current_download (Some e) (w_dl w)).
  assert (Hany : ∀ d, kept (w_dl w) d →
            downloaded_bytes d = downloaded_bytes (w_dl w) →
            during w e (mkWorld (w_fs w) d)) by apply during_start.
  assert (H0 : during w e (mkWorld (w_fs w) d0))
    by (apply Hany; subst d0; cbn; auto with kept).
  destruct (mkdir_fails ev).
  { intros [= <- <- <-].
    assert (during w e (mkWorld (w_fs w)
              (set_status_text (StCritical Py.OSError) d0)))
      by (apply Hany; subst d0; cbn; auto with kept).
    split; [forall_hyps|]. by split. }
  set (d1 := set_total_status_text _ d0).
  set (w1 := mkWorld (w_fs w) d1).
  assert (H1 : during w e w1)
    by (apply Hany; subst d1 d0; cbn; auto with kept).
  assert (Hst : ∀ s, during w e (mkWorld (w_fs w) (set_status_text s d1)))
    by (intros s; apply Hany; subst d1 d0; cbn; auto with kept).
  unfold exists_ at 1.
  destruct (w_fs w !! e_source e) as [sf|] eqn:Hsrc; cbn [negb].
  2: { intros [= <- <- <-]. split; [forall_hyps|]. by split. }
  unfold getsize. rewrite Hsrc.
  destruct (copy_file ev (e_source e) (e_destination e)
              (Z.of_nat (length (f_data sf))) w1) as [[trc wc] res] eqn:Hcopy.
  destruct (copy_file_during ev e _ w1 trc wc res Hcopy) as (Htr & Hwc & Hfull).
  assert (Hlift : ∀ x, during w1 e x → during w e x).
  { intros x (Hk & Hfr & Hdst & Hd). split; [|split; [|split]].
    - eapply kept_trans; [|exact Hk]. subst w1 d1 d0. cbn. auto with kept.
    - exact Hfr.
    - exact Hdst.
    - exact Hd. }
  destruct res as [err|].
  - intros [= <- <- <-]. split; [|split].
    + constructor; [exact H0|]. constructor; [exact H1|].
      apply Forall_app. split.
      * eapply Forall_impl; [exact Htr|]. exact Hlift.
      * constructor; [|constructor]. by apply during_unlinked, Hlift.
    + by apply during_unlinked, Hlift.
    + apply unlink_gone.
  - destruct (verify (e_destination e) wc) as [err|] eqn:Hver.
    + intros [= <- <- <-]. split; [|split].
      * constructor; [exact H0|]. constructor; [exact H1|].
        apply Forall_app. split.
        -- eapply Forall_impl; [exact Htr|]. exact Hlift.
        -- constructor; [|constructor]. by apply during_unlinked, Hlift.
      * by apply during_unlinked, Hlift.
      * apply unlink_gone.
    + intros [= <- <- <-]. split; [|split].
      * constructor; [exact H0|]. constructor; [exact H1|].
        eapply Forall_impl; [exact Htr|]. exact Hlift.
      * by apply Hlift.
      * split; [exact Hver|]. intros Hne. by apply Hfull.
Qed.

(** Induction over the queue loop: [I] holds when an iteration starts,
    [P] of every world passed through. *)
Lemma queue_loop_invariant (I : list entry → world → Prop)
    (P : world → Prop) os :
  (∀ q w, I q w → P w) →
  (∀ e q w x, I (e :: q) w →
     during (mkWorld (w_fs w) (set_download_queue q (w_dl w))) e x → P x) →
  (∀ e q w x, I (e :: q) w →
     during (mkWorld (w_fs w) (set_download_queue q (w_dl w))) e x → I q x) →
  ∀ q i w tr log wf,
    I q w → queue_loop os i q w = (tr, log, wf) →
    Forall P tr ∧ P wf ∧ I [] wf.
Proof.
  intros Hbase Hstep Hnext.
  induction q as [|e q IH]; intros i w tr log wf HI; cbn [queue_loop].
  - intros [= <- <- <-]. split; [constructor|].
    split; [by apply (Hbase [])|done].
  - set (w0 := mkWorld (w_fs w) (set_download_queue q (w_dl w))).
    destruct (process_entry (os i) e w0) as [[tr1 w1] o] eqn:Hentry.
    destruct (queue_loop os (S i) q w1) as [[tr2 log2] wf2] eqn:Hloop.
    intros [= <- <- <-].
    destruct (process_entry_during _ _ _ _ _ _ Hentry) as (Htr1 & Hw1 & _).
    destruct (IH (S i) w1 tr2 log2 wf2) as (Htr2 & Hwf & Hend);
      [by eapply Hnext|done|].
    split; [|by split]. apply Forall_app. split; [|exact Htr2].
    eapply Forall_impl; [exact Htr1|]. intros x Hx. by eapply Hstep.
Qed.

Lemma queue_loop_log os q : ∀ i w tr log wf,
  queue_loop os i q w = (tr, log, wf) → map fst log = q.
Proof.
  induction q as [|e q IH]; intros i w tr log wf; cbn [queue_loop].
  - by intros [= <- <- <-].
  - destruct (process_entry (os i) e _) as [[tr1 w1] o].
    destruct (queue_loop os (S i) q w1) as [[tr2 log2] wf2] eqn:Hloop.
    intros [= <- <- <-]. cbn. f_equal. by eapply IH.
Qed.

(** The fields the loop leaves as they are, the queue apart. *)
Lemma queue_loop_kept os q i w tr log wf :
  queue_loop os i q w = (tr, log, wf) →
  download_queue (w_dl w) = q →
  kept (set_download_queue [] (w_dl w)) (w_dl wf).
Proof.
  intros Hloop Hq.
  pose (I := λ (q : list entry) (x : world),
          download_queue (w_dl x) = q
          ∧ kept (set_download_queue q (w_dl w)) (w_dl x)).
  assert (Hnext : ∀ e q w' x, I (e :: q) w' →
            during (mkWorld (w_fs w') (set_download_queue q (w_dl w'))) e x →
            I q x).
  { intros e q' w' x [Hq1 Hk1] (Hk2 & _). split; [apply Hk2|].
    revert Hk1 Hk2. kept_setter. }
  assert (HI : I q w).
  { split; [done|]. subst q. by repeat split. }
  destruct (queue_loop_invariant I (λ _, True) os
              (λ _ _ _, Logic.I) (λ _ _ _ _ _ _, Logic.I) Hnext
              q i w tr log wf HI Hloop) as (_ & _ & _ & Hk).
  exact Hk.
Qed.

Lemma sum_sizes_nonneg q : Forall (λ e, 0 ≤ e_size e) q → 0 ≤ sum_sizes q.
Proof.
  induction 1 as [|e q He _ IH]; cbn; [done|]. fold (sum_sizes q). lia.
Qed.

Lemma data_of_frame (fs fs' : gmap string file) p :
  fs' !! p = fs !! p → data_of fs' p = data_of fs p.
Proof. unfold data_of. by intros ->. Qed.

(** The byte counter under the loop, when the sources fit their sizes. *)
Lemma queue_loop_counter os (all : list entry) q i w tr log wf :
  (∀ e e', e ∈ all → e' ∈ all → e_source e ≠ e_destination e') →
  (∀ e, e ∈ q → e ∈ all) →
  Forall (λ e, 0 ≤ e_size e) q →
  Forall (λ e, Z.of_nat (length (data_of (w_fs w) (e_source e))) ≤ e_size e) q →
  downloaded_bytes (w_dl w) + sum_sizes q ≤ total_size_bytes (w_dl w) →
  queue_loop os i q w = (tr, log, wf) →
  Forall (λ x, downloaded_bytes (w_dl x) ≤ total_size_bytes (w_dl x)) tr
  ∧ downloaded_bytes (w_dl wf) ≤ total_size_bytes (w_dl wf).
Proof.
  intros Hdisj Hsub Hpos Hfit Hsum Hloop.
  pose (I := λ (q : list entry) (x : world),
          (∀ e, e ∈ q → e ∈ all)
          ∧ Forall (λ e, 0 ≤ e_size e) q
          ∧ Forall (λ e, Z.of_nat (length (data_of (w_fs x) (e_source e)))
                         ≤ e_size e) q
          ∧ downloaded_bytes (w_dl x) + sum_sizes q
            ≤ total_size_bytes (w_dl x)).
  assert (Hbase : ∀ q x, I q x →
            downloaded_bytes (w_dl x) ≤ total_size_bytes (w_dl x)).
  { intros q' x (_ & Hp & _ & Hs). apply sum_sizes_nonneg in Hp. lia. }
  assert (Hnext : ∀ e q w' x, I (e :: q) w' →
            during (mkWorld (w_fs w') (set_download_queue q (w_dl w'))) e x →
            I q x).
  { intros e q' w' x (Hs & Hp & Hf & Hd) (Hk & Hfr & _ & Hb).
    apply Forall_cons in Hp as [Hpe Hp]. apply Forall_cons in Hf as [Hfe Hf].
    cbn in Hb, Hfr, Hd. fold (sum_sizes q') in Hd.
    destruct Hk as (_ & _ & _ & _ & _ & _ & _ & Htot & _). cbn in Htot.
    split; [|split; [|split]].
    - intros e' He'. apply Hs. by right.
    - exact Hp.
    - rewrite Forall_forall in Hf. apply Forall_forall. intros e' He'.
      rewrite (data_of_frame (w_fs w')); [by apply Hf|].
      apply Hfr. apply Hdisj; apply Hs; [by right|by left].
    - rewrite Htot. lia. }
  assert (Hstep : ∀ e q w' x, I (e :: q) w' →
            during (mkWorld (w_fs w') (set_download_queue q (w_dl w'))) e x →
            downloaded_bytes (w_dl x) ≤ total_size_bytes (w_dl x)).
  { intros e q' w' x HI Hx. eapply Hbase, Hnext; eauto. }
  destruct (queue_loop_invariant I _ os Hbase Hstep Hnext
              q i w tr log wf) as (Htr & Hwf & _); [by repeat split|done|].
  by split.
Qed.

(** No path outside the queued destinations changes under the loop. *)
Lemma queue_loop_frame os q i w tr log wf :
  queue_loop os i q w = (tr, log, wf) →
  Forall (λ x, ∀ p, p ∉ map e_destination q → w_fs x !! p = w_fs w !! p) tr
  ∧ ∀ p, p ∉ map e_destination q → w_fs wf !! p = w_fs w !! p.
Proof.
  intros Hloop.
  pose (P := λ x : world,
          ∀ p, p ∉ map e_destination q → w_fs x !! p = w_fs w !! p).
  pose (I := λ (q' : list entry) (x : world),
          (∀ e, e ∈ q' → e_destination e ∈ map e_destination q) ∧ P x).
  assert (Hnext : ∀ e q' w' x, I (e :: q') w' →
            during (mkWorld (w_fs w') (set_download_queue q' (w_dl w'))) e x →
            I q' x).
  { intros e q' w' x [Hin Hp] (_ & Hfr & _). split.
    - intros e' He'. apply Hin. by right.
    - intros p Hnot. cbn in Hfr. rewrite Hfr; [by apply Hp|].
      intros ->. apply Hnot, Hin. by left. }
  destruct (queue_loop_invariant I P os) with (q := q) (i := i) (w := w)
    (tr := tr) (log := log) (wf := wf) as (Htr & Hwf & _).
  - by intros ? ? [_ ?].
  - intros e q' w' x HI Hx. by destruct (Hnext e q' w' x HI Hx).
  - exact Hnext.
  - split; [|done]. intros e He. apply list_elem_of_fmap. by exists e.
  - exact Hloop.
  - by split.
Qed.

End Transfer.

Section TransferClaims.
Import OS Main Inv.

(** A file is only left installed when its fingerprint, taken after the
    copy, is the hash the manifest has for its path. *)
Lemma installed_is_verified ev e w tr w' :
  process_entry ev e w = (tr, w', Installed) →
  verify (e_destination e) w' = None.
Proof.
  intros H. by destruct (process_entry_during _ _ _ _ _ _ H) as (_ & _ & ? & _).
Qed.


Lemma process_queue_log os w :
  map fst (r_log (process_queue os w)) = download_queue (w_dl w).
Proof.
  unfold process_queue. cbn [w_fs w_dl].
  destruct (queue_loop os 0 _ _) as [[tr log] wf] eqn:Hloop. cbn [r_log].
  apply queue_loop_log in Hloop. exact Hloop.
Qed.




















(** C8, as the code has it. Whatever happens to the entries, the loop
    goes through the whole queue, and the session ends on the same two
    texts: "all files downloaded" and the count and size of the files
    the check had found to download. *)
Theorem errors_do_not_abort_and_summary_is_fixed os w :
  let r := process_queue os w in
  length (r_log r) = length (download_queue (w_dl w))
  ∧ download_queue (w_dl (r_final r)) = []
  ∧ current_download (w_dl (r_final r)) = None
  ∧ Spec.summary r
    = (StAllDone, TsFinished (files_requiring_download (w_dl w))
                             (size_requiring_download (w_dl w))).
Proof.
  cbn zeta. split.
  { rewrite <- (process_queue_log os w). symmetry. apply length_map. }
  unfold Spec.summary, process_queue. cbn [w_fs w_dl].
  destruct (queue_loop os 0 _ _) as [[tr log] wf] eqn:Hloop.
  cbn [r_final w_dl].
  apply queue_loop_kept in Hloop; [|done].
  destruct Hloop as (Hq & _ & _ & _ & _ & _ & _ & _ & Hf & Hs).
  cbn in Hq, Hf, Hs. cbn. by rewrite Hq, Hf, Hs.
Qed.

(** C9, as the code has it. The byte counter grows by the length of
    every chunk copied and is never clamped. It stays at or below the
    total expected at every point of [process_queue] when the queued
    sizes are not negative, no queued source file is longer than the
    size queued for it, and no source path is also a destination path. *)
Theorem counter_bounded_when_sources_fit os w :
  let q := download_queue (w_dl w) in
  Forall (λ e, 0 ≤ e_size e) q →
  Forall (λ e, Z.of_nat (length (data_of (w_fs w) (e_source e))) ≤ e_size e) q →
  (∀ e e', e ∈ q → e' ∈ q → e_source e ≠ e_destination e') →
  Forall (λ x, downloaded_bytes (w_dl x) ≤ total_size_bytes (w_dl x))
         (r_trace (process_queue os w)).
Proof.
  cbn zeta. intros Hpos Hfit Hdisj. unfold process_queue.
  cbn [w_fs w_dl download_queue set_downloaded_bytes set_total_size_bytes].
  set (w0 := mkWorld (w_fs w) _).
  destruct (queue_loop os 0 _ w0) as [[tr log] wf] eqn:Hloop.
  cbn [r_trace].
  pose proof (sum_sizes_nonneg _ Hpos) as Hsum.
  assert (Hstart : downloaded_bytes (w_dl w0)
                   + sum_sizes (download_queue (w_dl w))
                   ≤ total_size_bytes (w_dl w0)) by (subst w0; cbn; lia).
  destruct (queue_loop_counter os (download_queue (w_dl w))
              (download_queue (w_dl w)) 0 w0 tr log wf
              Hdisj (λ _ H, H) Hpos Hfit Hstart Hloop) as [Htr Hwf].
  pose proof Hloop as Hk. apply queue_loop_kept in Hk; [|done].
  destruct Hk as (_ & _ & _ & _ & _ & _ & _ & Htot & _).
  constructor; [subst w0; cbn; lia|].
  apply Forall_app. split; [exact Htr|].
  constructor; [|constructor]. cbn. exact Hwf.
Qed.

(** C1, as the code has it. The transfer writes the final path in place.
    Under [process_queue] no path other than the queued destinations
    ever changes, so nothing is written to a temporary path; and in each
    iteration the destination holds, at every point, what it held
    before, or no file, or a file whose bytes are a prefix of the
    source's bytes. An iteration that ends at the bottom of the loop
    leaves there, complete, the bytes of the source, and they have
    passed the hash check. *)
Theorem transfer_writes_final_path_in_place os w :
  Forall (λ x, ∀ p, p ∉ map e_destination (download_queue (w_dl w)) →
               w_fs x !! p = w_fs w !! p)
         (r_trace (process_queue os w))
  ∧ ∀ ev e w0,
      Forall (λ x,
                w_fs x !! e_destination e = w_fs w0 !! e_destination e
                ∨ w_fs x !! e_destination e = None
                ∨ ∃ f, w_fs x !! e_destination e = Some f
                       ∧ f_data f `prefix_of` data_of (w_fs w0) (e_source e))
             (fst (fst (process_entry ev e w0)))
      ∧ (snd (process_entry ev e w0) = Installed →
         e_source e ≠ e_destination e →
         verify (e_destination e) (snd (fst (process_entry ev e w0))) = None
         ∧ data_of (w_fs (snd (fst (process_entry ev e w0)))) (e_destination e)
           = data_of (w_fs w0) (e_source e)).
Proof.
  split.
  - unfold process_queue.
    cbn [w_fs w_dl download_queue set_downloaded_bytes set_total_size_bytes].
    set (w0 := mkWorld (w_fs w) _).
    destruct (queue_loop os 0 _ w0) as [[tr log] wf] eqn:Hloop.
    cbn [r_trace].
    destruct (queue_loop_frame _ _ _ _ _ _ _ Hloop) as [Htr Hwf].
    constructor; [done|]. apply Forall_app. split; [exact Htr|].
    constructor; [|constructor]. exact Hwf.
  - intros ev e w0.
    destruct (process_entry ev e w0) as [[tr w'] o] eqn:H. cbn [fst snd].
    destruct (process_entry_during _ _ _ _ _ _ H) as (Htr & _ & Ho).
    split.
    + eapply Forall_impl; [exact Htr|]. by intros x (_ & _ & Hd & _).
    + intros -> Hne. destruct Ho as [Hv Hfull]. split; [exact Hv|].
      unfold data_of at 1. by rewrite (Hfull Hne).
Qed.

End TransferClaims.

Section TransferExamples.
Import OS Main Inv Scenario.

Ltac evaluate :=
  repeat match goal with |- _ ∧ _ => split end; vm_compute; reflexivity.

(** The runs below are those of the handler of the check button. *)
Example sessions_are_runs :
  s_run session_later = Some run_later
  ∧ s_run session_same = Some run_same
  ∧ s_run session_missing = Some run_missing
  ∧ s_run session_short = Some run_short.
Proof. evaluate. Qed.


Lemma counter_bounded_when_sources_fit_witness :
  let q := download_queue (w_dl queued_a) in
  (Forall (λ e, 0 ≤ e_size e) q
   ∧ Forall (λ e, Z.of_nat (length (data_of (w_fs queued_a) (e_source e)))
                  ≤ e_size e) q
   ∧ (∀ e e', e ∈ q → e' ∈ q → e_source e ≠ e_destination e'))
  ∧ Forall (λ x, downloaded_bytes (w_dl x) ≤ total_size_bytes (w_dl x))
           (r_trace (process_queue (calm "1.5") queued_a)).
Proof.
  cbn zeta.
  assert (H1 : Forall (λ e, 0 ≤ e_size e) (download_queue (w_dl queued_a))).
  { apply Forall_cons_2; [vm_compute; discriminate|apply Forall_nil_2]. }
  assert (H2 : Forall (λ e, Z.of_nat (length (data_of (w_fs queued_a)
                                                (e_source e))) ≤ e_size e)
                 (download_queue (w_dl queued_a))).
  { apply Forall_cons_2; [vm_compute; discriminate|apply Forall_nil_2]. }
  assert (H3 : ∀ e e', e ∈ download_queue (w_dl queued_a) →
                 e' ∈ download_queue (w_dl queued_a) →
                 e_source e ≠ e_destination e').
  { intros e e' He He'. apply list_elem_of_singleton in He, He'.
    subst e e'. vm_compute. discriminate. }
  split; [exact (conj H1 (conj H2 H3))|].
  exact (counter_bounded_when_sources_fit (calm "1.5") queued_a H1 H2 H3).
Defined.

Lemma transfer_writes_final_path_in_place_witness :
  let ev := calm "1.5" 0 in
  (snd (process_entry ev entry_a started_a) = Installed
   ∧ e_source entry_a ≠ e_destination entry_a)
  ∧ verify "dl/a" (snd (fst (process_entry ev entry_a started_a))) = None
  ∧ data_of (w_fs (snd (fst (process_entry ev entry_a started_a)))) "dl/a"
    = data_of (w_fs started_a) "src/a".
Proof.
  cbn zeta.
  assert (H1 : snd (process_entry (calm "1.5" 0) entry_a started_a) = Installed)
    by (vm_compute; reflexivity).
  assert (H2 : e_source entry_a ≠ e_destination entry_a)
    by (vm_compute; discriminate).
  split; [exact (conj H1 H2)|].
  exact (proj2 (proj2 (transfer_writes_final_path_in_place
                         (calm "1.5") started_a)
                  (calm "1.5" 0) entry_a started_a) H1 H2).
Defined.

Lemma forallb_of_Forall {A} (P : A → Prop) (b : A → bool) l :
  (∀ x, P x → b x = true) → Forall P l → forallb b l = true.
Proof.
  intros Hb. induction 1 as [|x l Hx _ IH]; cbn; [done|].
  by rewrite (Hb x Hx), IH.
Qed.

(** C1, as stated, fails in the run of [session_later]: after the copy
    has opened the destination and before it has written the first
    chunk, the final path holds an empty file, which is neither the
    file that was there nor the new one. *)
Lemma destination_is_truncated_mid_transfer :
  ¬ Forall (λ x, Spec.old_or_new disk "src/a" "dl/a" (w_fs x))
           (r_trace run_later).
Proof.
  intros H.
  apply (forallb_of_Forall _ (λ x, negb (empty_at "dl/a" x))) in H.
  - vm_compute in H. discriminate.
  - intros x Hx. unfold empty_at.
    destruct Hx as [Hold|(f & s & Hf & Hs & Hdata)].
    + rewrite Hold. vm_compute. reflexivity.
    + rewrite Hf. vm_compute in Hs. injection Hs as <-.
      rewrite Hdata. reflexivity.
Qed.

(** C2 at the input where the code departs from it. The record of the
    manifest is the one the generator writes for the source file, so the
    source matches it; the copy is stamped with the time it is made, the
    fingerprint of the destination covers that stamp, the check fails
    and the copy is deleted. The file is installed only in the run where
    the copy gets the very stamp of the source. *)
Theorem matching_source_is_deleted_after_copy :
  Py.subscript manifest_a "files"
  = inr (Py.VList [FilesReport.record "a"
                     (Main.calculate_fast_hash disk "src/a") 3])
  ∧ r_log run_later = [(entry_a, VerifyFailed Py.ValueError)]
  ∧ w_fs (r_final run_later) !! "dl/a" = None
  ∧ r_log run_same = [(entry_a, Installed)]
  ∧ Main.calculate_fast_hash (w_fs (r_final run_same)) "dl/a"
    = Main.calculate_fast_hash disk "src/a".
Proof. evaluate. Qed.



(** C8, as stated, fails on the summary: the run in which the source
    file is missing ends on the same two texts as the run in which the
    file is installed. *)
Lemma summary_hides_failures :
  r_log run_missing = [(entry_a, SourceMissing)]
  ∧ r_log run_same = [(entry_a, Installed)]
  ∧ Spec.summary run_missing = Spec.summary run_same
  ∧ Spec.summary run_missing = (StAllDone, TsFinished 1 3).
Proof. evaluate. Qed.

(** C9, as stated, fails in the run of [session_short]: the manifest
    gives one byte for a source file of three, and after the only chunk
    the counter is at three against a total of one. *)
Lemma counter_exceeds_total :
  sum_sizes (download_queue (w_dl queued_short)) = 1
  ∧ ¬ Forall (λ x, downloaded_bytes (w_dl x) ≤ total_size_bytes (w_dl x))
             (r_trace run_short).
Proof.
  split; [reflexivity|]. intros H.
  apply (forallb_of_Forall _
           (λ x, downloaded_bytes (w_dl x) <=? total_size_bytes (w_dl x))) in H.
  - vm_compute in H. discriminate.
  - intros x Hx. by apply Z.leb_le.
Qed.

End TransferExamples.

(** * Further properties of the code *)

(** ** The digest and the error text *)
Section Digest.
Import OS Hashlib.

Lemma F_length h m t f : length (Blake2b.F h m t f) = 8%nat.
Proof. unfold Blake2b.F. by rewrite length_map, length_seq. Qed.

Lemma absorb_length fuel : ∀ h t data,
  length (Blake2b.absorb fuel h t data) = 8%nat.
Proof.
  induction fuel as [|fuel IH]; intros h t data; cbn [Blake2b.absorb].
  - apply F_length.
  - destruct (length data <=? 128)%nat; [apply F_length|apply IH].
Qed.

Lemma word_bytes_length w : length (Blake2b.word_bytes w) = 8%nat.
Proof. unfold Blake2b.word_bytes. by rewrite length_map, length_seq. Qed.

Lemma concat_word_bytes_length h :
  length (concat (map Blake2b.word_bytes h)) = (8 * length h)%nat.
Proof.
  induction h as [|w h IH]; [done|].
  cbn [map concat length]. rewrite length_app, word_bytes_length, IH. lia.
Qed.

Lemma blake2b_32_length data : length (Blake2b.blake2b 32 data) = 32%nat.
Proof.
  unfold Blake2b.blake2b. rewrite length_take, concat_word_bytes_length.
  rewrite absorb_length. reflexivity.
Qed.

Lemma string_app_length s t :
  String.length (s +:+ t) = (String.length s + String.length t)%nat.
Proof.
  induction s as [|c s IH]; [reflexivity|].
  change (S (String.length (s +:+ t))
          = S (String.length s + String.length t)).
  by rewrite IH.
Qed.

Lemma string_app_chars s t :
  list_ascii_of_string (s +:+ t)
  = list_ascii_of_string s ++ list_ascii_of_string t.
Proof.
  induction s as [|c s IH]; [reflexivity|].
  change (c :: list_ascii_of_string (s +:+ t)
          = c :: (list_ascii_of_string s ++ list_ascii_of_string t)).
  by rewrite IH.
Qed.

Lemma hex_length bs : String.length (Blake2b.hex bs) = (2 * length bs)%nat.
Proof.
  induction bs as [|b bs IH]; [done|].
  cbn [Blake2b.hex length]. rewrite string_app_length, IH.
  unfold Blake2b.hex_byte. cbn [String.length]. lia.
Qed.

Lemma hex_digit_char n : Blake2b.hex_char (Blake2b.hex_digit n).
Proof.
  unfold Blake2b.hex_char, Blake2b.hex_digit.
  set (l := list_ascii_of_string "0123456789abcdef").
  destruct (nth_in_or_default (N.to_nat n) l "0"%char) as [Hin| ->].
  - by apply list_elem_of_In.
  - subst l. cbn. left.
Qed.

Lemma hex_chars bs :
  Forall Blake2b.hex_char (list_ascii_of_string (Blake2b.hex bs)).
Proof.
  induction bs as [|b bs IH]; [constructor|].
  cbn [Blake2b.hex]. rewrite string_app_chars. apply Forall_app.
  split; [|exact IH]. unfold Blake2b.hex_byte. cbn [list_ascii_of_string].
  repeat (apply Forall_cons_2; [apply hex_digit_char|]). apply Forall_nil_2.
Qed.

Lemma hexdigest_length h : String.length (hexdigest h) = 64%nat.
Proof. unfold hexdigest. by rewrite hex_length, blake2b_32_length. Qed.

Lemma hexdigest_not_error h : hexdigest h ≠ "error"%string.
Proof.
  intros H. pose proof (hexdigest_length h) as Hl. rewrite H in Hl.
  discriminate.
Qed.

Lemma fingerprint_is_digest (f : file) :
  ∃ h, Spec.fingerprint f = hexdigest h.
Proof. eexists. unfold Spec.fingerprint, hexdigest. reflexivity. Qed.

Lemma fingerprint_not_error (f : file) : Spec.fingerprint f ≠ "error"%string.
Proof.
  destruct (fingerprint_is_digest f) as [h ->]. apply hexdigest_not_error.
Qed.

(** The [try] block raises exactly when there is no file, [open]
    raises, or [read] raises. *)
Lemma hash_file_none (fs : gmap string file) p :
  Main.hash_file fs p = None ↔ Plan.readable_at fs p = false.
Proof.
  unfold Plan.readable_at. destruct (fs !! p) as [f|] eqn:Hp.
  - destruct (f_readable f) eqn:Hr.
    + rewrite (hash_file_readable fs p f Hp Hr). cbn zeta. done.
    + unfold Main.hash_file, open_rb. rewrite Hp.
      unfold f_readable in Hr. by destruct (f_access f).
  - unfold Main.hash_file, open_rb. rewrite Hp. done.
Qed.

(** [calculate_fast_hash] returns the text [error] exactly when its
    [try] block raised, no digest being that text; the block raises
    exactly when there is no file at the path or the file cannot be
    read, be it that [open] raises or that [read] does; and every other
    result is 64 characters, all of them lowercase hex digits. *)
Theorem error_text_means_unreadable (fs : gmap string file) p :
  (Main.calculate_fast_hash fs p = "error"%string
   ↔ Main.hash_file fs p = None)
  ∧ (Main.hash_file fs p = None ↔ Plan.readable_at fs p = false)
  ∧ (Main.calculate_fast_hash fs p ≠ "error"%string →
     String.length (Main.calculate_fast_hash fs p) = 64%nat
     ∧ Forall Blake2b.hex_char
         (list_ascii_of_string (Main.calculate_fast_hash fs p))).
Proof.
  split; [|split; [apply hash_file_none|]];
    unfold Main.calculate_fast_hash;
    destruct (Main.hash_file fs p) as [[h r]|] eqn:Hh.
  - split; [intros He; by apply hexdigest_not_error in He|done].
  - done.
  - intros _. split; [apply hexdigest_length|apply hex_chars].
  - done.
Qed.

(** The bytes of a file that lie after the first 65536 and before the
    last 65536 (all bytes after the first 65536 when the size is at most
    131072) have no part in its fingerprint: two readable files of the
    same size and time stamp that agree on the sampled bytes have the
    same fingerprint. *)
Theorem fingerprint_ignores_unsampled_bytes (fs1 fs2 : gmap string file)
    p1 p2 f1 f2 :
  fs1 !! p1 = Some f1 → f_readable f1 = true →
  fs2 !! p2 = Some f2 → f_readable f2 = true →
  length (f_data f1) = length (f_data f2) →
  f_mtime f1 = f_mtime f2 →
  take head_len (f_data f1) = take head_len (f_data f2) →
  (131072 < Z.of_nat (length (f_data f1)) →
   drop (length (f_data f1) - head_len) (f_data f1)
   = drop (length (f_data f2) - head_len) (f_data f2)) →
  Main.calculate_fast_hash fs1 p1 = Main.calculate_fast_hash fs2 p2.
Proof.
  intros Hp1 Hr1 Hp2 Hr2 Hlen Hm Hhead Htail.
  transitivity (Spec.fingerprint f1);
    [by apply calculate_fast_hash_readable|].
  symmetry. transitivity (Spec.fingerprint f2);
    [by apply calculate_fast_hash_readable|].
  unfold Spec.fingerprint. cbn zeta. rewrite <- Hlen, <- Hm, <- Hhead.
  destruct (Z.ltb_spec 131072 (Z.of_nat (length (f_data f1)))) as [Hbig|_].
  - rewrite (Htail Hbig), Hlen. reflexivity.
  - reflexivity.
Qed.

End Digest.

(** ** The manifest generator *)
Section Generator.
Import OS Hashlib FilesReport Plan.

Lemma string_app_assoc s t u : (s +:+ t) +:+ u = s +:+ t +:+ u.
Proof.
  induction s as [|c s IH]; [reflexivity|].
  change (String c ((s +:+ t) +:+ u) = String c (s +:+ t +:+ u)).
  by rewrite IH.
Qed.

Lemma join_assoc a b c : join (join a b) c = join a (join b c).
Proof. unfold join. by rewrite !string_app_assoc. Qed.

Lemma join_longer a b : join a b ≠ a.
Proof.
  intros H. apply (f_equal String.length) in H. unfold join in H.
  rewrite !string_app_length in H. cbn in H. lia.
Qed.

(** The path under which a file is recorded leads back to the file. *)
Lemma display_path_leads_back directory sub file :
  join directory
    (if String.eqb (walk_root directory sub) directory then file
     else relpath sub file)
  = join (walk_root directory sub) file.
Proof.
  unfold walk_root, relpath. destruct (String.eqb sub "").
  - by rewrite String.eqb_refl.
  - destruct (String.eqb_spec (join directory sub) directory) as [H|_].
    + by apply join_longer in H.
    + by rewrite join_assoc.
Qed.

Lemma sizes_app rs rs' : sizes (rs ++ rs') = sizes rs + sizes rs'.
Proof. induction rs as [|r rs IH]; cbn; [done|]. fold (sizes (rs ++ rs')).
  fold (sizes rs). lia. Qed.

Lemma scan_file_gathered (fs : gmap string file) directory sub file acc rs :
  gathered fs directory acc rs →
  ∃ rs', gathered fs directory (scan_file fs directory sub file acc) rs'.
Proof.
  intros (Hf & Hp & Hs & Hd). unfold scan_file.
  destruct (getsize fs (join (walk_root directory sub) file))
    as [size|] eqn:Hsize; [|by exists rs].
  destruct (String.eqb_spec
              (calculate_fast_hash fs (join (walk_root directory sub) file))
              "error") as [_|Hne]; [by exists rs|].
  set (path := if String.eqb (walk_root directory sub) directory then file
               else relpath sub file).
  pose proof (display_path_leads_back directory sub file) as Hback.
  fold path in Hback.
  exists (rs ++ [(path,
                  calculate_fast_hash fs (join (walk_root directory sub) file),
                  size)]).
  split; [|split; [|split]]; cbn [sc_files sc_processed sc_total_size].
  - by rewrite Hf, map_app.
  - rewrite Hp, length_app. cbn. lia.
  - rewrite Hs, sizes_app. cbn. lia.
  - apply Forall_app. split; [exact Hd|].
    apply Forall_cons_2; [|apply Forall_nil_2].
    unfold describes. cbn [fst snd]. by rewrite Hback.
Qed.

Lemma scan_dir_gathered (fs : gmap string file) directory visit : ∀ acc rs,
  gathered fs directory acc rs →
  ∃ rs', gathered fs directory (scan_dir fs directory acc visit) rs'.
Proof.
  unfold scan_dir. destruct visit as [sub files]. cbn [fst snd].
  induction files as [|file files IH]; intros acc rs Hg; cbn [fold_left].
  - by exists rs.
  - destruct (scan_file_gathered fs directory sub file acc rs Hg) as [rs' Hg'].
    by apply (IH _ rs').
Qed.

Lemma scan_gathered (fs : gmap string file) directory walk : ∀ acc rs,
  gathered fs directory acc rs →
  ∃ rs', gathered fs directory (fold_left (scan_dir fs directory) walk acc) rs'.
Proof.
  induction walk as [|visit walk IH]; intros acc rs Hg; cbn [fold_left].
  - by exists rs.
  - destruct (scan_dir_gathered fs directory visit acc rs Hg) as [rs' Hg'].
    by apply (IH _ rs').
Qed.

Lemma report_gathered sc (fs : gmap string file) directory m st :
  generate_directory_report sc fs directory = Some (m, st) →
  ∃ rs, m = report (map to_record rs)
        ∧ Forall (describes fs directory) rs
        ∧ st_total_files st = Z.of_nat (length rs)
        ∧ st_total_size st = sizes rs
        ∧ (st_overall_hash st = ""%string ↔ rs = []).
Proof.
  unfold generate_directory_report.
  destruct (s_isdir sc); [|done]. cbn [negb].
  destruct (_ =? 0); [done|].
  destruct (scan_gathered fs directory (s_walk sc) (mkScanned [] new 0 0) [])
    as (rs & Hf & Hp & Hs & Hd); [by repeat split|].
  intros [= <- <-]. exists rs. cbn [st_total_files st_total_size st_overall_hash].
  split; [by rewrite Hf|]. split; [exact Hd|]. split; [exact Hp|].
  split; [exact Hs|]. rewrite Hp.
  destruct rs as [|r rs]; cbn [length].
  - done.
  - destruct (Z.ltb_spec 0 (Z.of_nat (S (length rs)))) as [_|?]; [|lia].
    split; [|done]. intros He. exfalso.
    pose proof (hexdigest_length
                  (fold_left (scan_dir fs directory) (s_walk sc)
                     (mkScanned [] new 0 0)).(sc_hasher)) as Hl.
    rewrite He in Hl. discriminate.
Qed.

(** The report [generate_directory_report] writes is consistent: its
    records describe files of the directory, with their own size and a
    fingerprint that is never the error text; [total_files] counts the
    records, [total_size] adds up their sizes, and [overall_hash] is
    empty exactly when there is no record. *)
Theorem report_is_consistent sc (fs : gmap string file) directory m st :
  generate_directory_report sc fs directory = Some (m, st) →
  ∃ rs, m = report (map to_record rs)
        ∧ Forall (describes fs directory) rs
        ∧ st_total_files st = Z.of_nat (length rs)
        ∧ st_total_size st = sizes rs
        ∧ (st_overall_hash st = ""%string ↔ rs = []).
Proof. apply report_gathered. Qed.

Lemma described_is_skipped (fs : gmap string file) directory r :
  describes fs directory r → planned fs directory r = Skip.
Proof.
  destruct r as [[path hash] size]. unfold describes, planned, plan_one.
  cbn [fst snd]. intros (Hne & Hh & _).
  assert (Hm : Main.calculate_fast_hash fs (join directory path) = hash).
  { rewrite Hh. symmetry.
    unfold Main.calculate_fast_hash, calculate_fast_hash.
    by rewrite hash_file_same. }
  destruct (fs !! join directory path) as [f|] eqn:Hf.
  - destruct (f_readable f) eqn:Hr.
    + rewrite (calculate_fast_hash_readable fs _ f Hf Hr) in Hm.
      by rewrite Hm, String.eqb_refl.
    + rewrite (calculate_fast_hash_unreadable fs _ f Hf Hr) in Hm. congruence.
  - exfalso. apply Hne. rewrite <- Hm.
    unfold Main.calculate_fast_hash, Main.hash_file, open_rb. by rewrite Hf.
Qed.

(** A manifest generated from a directory finds that directory up to
    date: [check_files], run with the scanned directory as download
    folder on the disk as it was scanned, returns nothing to download,
    and when the report has records it shows the OK text once for each. *)
Theorem generated_manifest_finds_directory_current sc
    (fs : gmap string file) directory m st d :
  generate_directory_report sc fs directory = Some (m, st) →
  Main.download_folder d = directory →
  let ck := Main.check_files (Some m) fs d in
  Main.c_value ck = inr []
  ∧ (st_total_files st ≠ 0 →
     Z.of_nat (length (Main.c_shown ck)) = st_total_files st
     ∧ Forall is_ok (Main.c_shown ck)).
Proof.
  intros Hgen Hd. cbn zeta.
  destruct (report_gathered _ _ _ _ _ Hgen)
    as (rs & -> & Hdesc & Hn & _).
  destruct rs as [|r rs].
  - split; [|by rewrite Hn].
    apply (check_files_rejects (Some (report [])) fs d).
    right. exists (Py.VList []). by split; [|left].
  - assert (Herr : Forall (λ r, snd (fst r) ≠ "error"%string) (r :: rs)).
    { eapply Forall_impl; [exact Hdesc|]. by intros r' (? & _). }
    destruct (check_files_plan fs (r :: rs) d) as [Hv Hs]; [done|exact Herr|].
    rewrite Hd in Hv, Hs.
    assert (Hskip : Forall (λ r, planned fs directory r = Skip) (r :: rs)).
    { eapply Forall_impl; [exact Hdesc|]. apply described_is_skipped. }
    split.
    + rewrite Hv. f_equal.
      clear -Hskip. induction Hskip as [|r' rs' Hr' _ IH]; [done|].
      cbn [List.filter]. rewrite Hr'. cbn. exact IH.
    + intros _. rewrite Hs, length_map, Hn. split; [done|].
      clear -Hskip. induction Hskip as [|r' rs' Hr' _ IH]; [constructor|].
      cbn [map]. apply Forall_cons_2; [by rewrite Hr'|exact IH].
Qed.

(** On a manifest written by the generator the planner decides as §4.3
    says, on any disk: no record of it carries the error text as its
    hash, so a file that cannot be read is always fetched. *)
Theorem generated_manifest_is_planned_as_specified sc
    (fs0 : gmap string file) directory m st :
  generate_directory_report sc fs0 directory = Some (m, st) →
  ∃ rs, m = report (map to_record rs)
    ∧ ∀ (fs : gmap string file) d, rs ≠ [] →
        let root := Main.download_folder d in
        let ck := Main.check_files (Some m) fs d in
        Main.c_value ck
        = inr (map to_record
                 (List.filter (λ r, fetches (planned fs root r)) rs))
        ∧ Main.c_shown ck
          = map (λ r, shown_as (planned fs root r)
                        (name (join root (fst (fst r))))) rs.
Proof.
  intros Hgen.
  destruct (report_gathered _ _ _ _ _ Hgen) as (rs & -> & Hdesc & _).
  exists rs. split; [done|]. intros fs d Hne.
  apply check_files_plan; [exact Hne|].
  eapply Forall_impl; [exact Hdesc|]. by intros r (? & _).
Qed.

Lemma display_path_is_relpath directory sub file :
  (if String.eqb (walk_root directory sub) directory then file
   else relpath sub file) = relpath sub file.
Proof.
  unfold walk_root, relpath. destruct (String.eqb sub "").
  - by rewrite String.eqb_refl.
  - destruct (String.eqb_spec (join directory sub) directory) as [H|_];
      [by apply join_longer in H|done].
Qed.

Lemma recorded_iff_readable (fs : gmap string file) p :
  readable_at fs p = true
  ↔ (∃ size, getsize fs p = Some size)
    ∧ calculate_fast_hash fs p ≠ "error"%string.
Proof.
  unfold calculate_fast_hash. rewrite hash_file_same.
  destruct (Main.hash_file fs p) as [[h r]|] eqn:Hh.
  - assert (Hr : readable_at fs p = true).
    { destruct (readable_at fs p) eqn:E; [done|].
      apply hash_file_none in E. congruence. }
    rewrite Hr. split; [|done]. intros _.
    split; [|apply hexdigest_not_error].
    unfold readable_at, getsize in *. destruct (fs !! p); [eauto|done].
  - apply hash_file_none in Hh. rewrite Hh. split; [done|].
    by intros [_ ?].
Qed.

Lemma scan_file_paths (fs : gmap string file) directory sub file acc rs :
  sc_files acc = map to_record rs →
  ∃ rs', sc_files (scan_file fs directory sub file acc) = map to_record rs'
    ∧ map (λ r, fst (fst r)) rs'
      = map (λ r, fst (fst r)) rs
        ++ List.filter (λ p, readable_at fs (join directory p))
             [relpath sub file].
Proof.
  intros Hf. unfold scan_file.
  pose proof (display_path_leads_back directory sub file) as Hback.
  rewrite display_path_is_relpath in Hback |- *.
  cbn [List.filter]. rewrite Hback.
  pose proof (recorded_iff_readable fs (join (walk_root directory sub) file))
    as Hrd.
  destruct (getsize fs (join (walk_root directory sub) file))
    as [size|] eqn:Hsize.
  - destruct (String.eqb_spec
                (calculate_fast_hash fs (join (walk_root directory sub) file))
                "error") as [He|Hne].
    + destruct (readable_at fs _).
      * destruct Hrd as [Hrd _]. by destruct (Hrd eq_refl).
      * exists rs. by rewrite app_nil_r.
    + destruct (readable_at fs _); [|destruct Hrd as [_ Hrd];
        discriminate Hrd; split; eauto].
      eexists (rs ++ [(_, _, _)]). cbn [sc_files].
      rewrite Hf, !map_app. done.
  - destruct (readable_at fs _).
    + destruct Hrd as [Hrd _]. by destruct (Hrd eq_refl) as [[? ?] _].
    + exists rs. by rewrite app_nil_r.
Qed.

Lemma scan_dir_paths (fs : gmap string file) directory visit : ∀ acc rs,
  sc_files acc = map to_record rs →
  ∃ rs', sc_files (scan_dir fs directory acc visit) = map to_record rs'
    ∧ map (λ r, fst (fst r)) rs'
      = map (λ r, fst (fst r)) rs
        ++ List.filter (λ p, readable_at fs (join directory p))
             (map (relpath (fst visit)) (snd visit)).
Proof.
  unfold scan_dir. destruct visit as [sub files]. cbn [fst snd].
  induction files as [|file files IH]; intros acc rs Hf; cbn [fold_left map].
  - exists rs. by rewrite app_nil_r.
  - destruct (scan_file_paths fs directory sub file acc rs Hf)
      as (rs1 & Hf1 & Hp1).
    destruct (IH _ rs1 Hf1) as (rs2 & Hf2 & Hp2).
    exists rs2. split; [exact Hf2|]. rewrite Hp2, Hp1, <- app_assoc.
    f_equal. cbn [List.filter].
    by destruct (readable_at fs (join directory (relpath sub file))).
Qed.

Lemma scan_paths (fs : gmap string file) directory walk : ∀ acc rs,
  sc_files acc = map to_record rs →
  ∃ rs', sc_files (fold_left (scan_dir fs directory) walk acc)
         = map to_record rs'
    ∧ map (λ r, fst (fst r)) rs'
      = map (λ r, fst (fst r)) rs
        ++ List.filter (λ p, readable_at fs (join directory p))
             (flat_map (λ visit, map (relpath (fst visit)) (snd visit)) walk).
Proof.
  induction walk as [|visit walk IH]; intros acc rs Hf;
    cbn [fold_left flat_map].
  - exists rs. by rewrite app_nil_r.
  - destruct (scan_dir_paths fs directory visit acc rs Hf)
      as (rs1 & Hf1 & Hp1).
    destruct (IH _ rs1 Hf1) as (rs2 & Hf2 & Hp2).
    exists rs2. split; [exact Hf2|].
    by rewrite Hp2, Hp1, <- app_assoc, List.filter_app.
Qed.

(** The report lists the files that can be read, and only those: its
    records are, in the order of the walk, the files of the walk on
    which [open] and [read] succeed, each under its path relative to
    the scanned directory; a file that has vanished, cannot be opened,
    or opens and cannot be read is left out without a trace. *)
Theorem report_lists_the_readable_files sc (fs : gmap string file)
    directory m st :
  generate_directory_report sc fs directory = Some (m, st) →
  ∃ rs, m = report (map to_record rs)
    ∧ map (λ r, fst (fst r)) rs
      = List.filter (λ p, readable_at fs (join directory p)) (walked sc).
Proof.
  unfold generate_directory_report.
  destruct (s_isdir sc); [|done]. cbn [negb].
  destruct (_ =? 0); [done|].
  destruct (scan_paths fs directory (s_walk sc) (mkScanned [] new 0 0) [])
    as (rs & Hf & Hp); [done|].
  intros [= <- <-]. exists rs. split; [by rewrite Hf|exact Hp].
Qed.

End Generator.

(** ** The counters of the check and the queue built from it *)
Section Counters.
Import OS Main Plan.















End Counters.

(** ** The hash a download is checked against *)
Section Expected.
Import OS Main Plan.

Lemma strip_prefix_app pre s : strip_prefix pre (pre +:+ s) = Some s.
Proof.
  induction pre as [|c pre IH]; [reflexivity|].
  change (strip_prefix (String c pre) (String c (pre +:+ s)) = Some s).
  cbn [strip_prefix]. by rewrite Ascii.eqb_refl.
Qed.

(** The path of a record is recovered from the destination queued for it. *)
Lemma relative_to_join folder p : relative_to folder (join folder p) = Some p.
Proof.
  unfold relative_to, join. rewrite <- string_app_assoc.
  apply strip_prefix_app.
Qed.

Lemma find_hash_records p rs :
  find_hash (Some p) (map to_record rs)
  = inr (match first_with_path p rs with
         | Some r => Py.VStr (snd (fst r))
         | None => Py.VNone
         end).
Proof.
  unfold first_with_path.
  induction rs as [|[[path hash] size] rs IH]; [reflexivity|].
  cbn [map find_hash to_record FilesReport.record fst snd Py.subscript
       Py.dict_get List.find].
  change (String.eqb "path" "path") with true. cbn iota.
  cbn [Py.eq_str]. destruct (String.eqb path p); [reflexivity|exact IH].
Qed.

Lemma verify_first_record w folder p rs :
  manifest (w_dl w) = FilesReport.report (map to_record rs) →
  download_folder (w_dl w) = folder →
  verify (join folder p) w = None
  ↔ ∃ r, first_with_path p rs = Some r
         ∧ snd (fst r) = calculate_fast_hash (w_fs w) (join folder p).
Proof.
  intros Hm Hf. unfold verify. rewrite Hm, Hf, relative_to_join.
  cbn [FilesReport.report Py.subscript Py.dict_get Py.iter].
  change (String.eqb "files" "files") with true. cbn iota.
  change (Py.iter (Py.VList (map to_record rs)))
    with (inr (B:=list Py.pyval) (A:=Py.exn) (map to_record rs)).
  cbn iota. rewrite find_hash_records.
  destruct (first_with_path p rs) as [r|]; cbn [Py.eq_str].
  - destruct (String.eqb_spec (snd (fst r))
                (calculate_fast_hash (w_fs w) (join folder p))) as [He|Hne];
      cbn [negb].
    + split; [intros _; by exists r|done].
    + split; [done|]. intros (r' & [= <-] & He). done.
  - cbn [negb]. split; [done|]. by intros (r' & ? & _).
Qed.

(** The download of a queued file passes the hash check exactly when the
    fingerprint of the file now at the destination is the hash of the
    first record of the manifest that has the file's path; a later
    record with the same path plays no part, and with no such record the
    check fails. *)
Theorem download_is_checked_against_first_record w folder p rs :
  manifest (w_dl w) = FilesReport.report (map to_record rs) →
  download_folder (w_dl w) = folder →
  verify (join folder p) w = None
  ↔ ∃ r, first_with_path p rs = Some r
         ∧ snd (fst r) = calculate_fast_hash (w_fs w) (join folder p).
Proof. apply verify_first_record. Qed.

End Expected.

(** ** The ways an iteration of the transfer loop ends *)
Section Endings.
Import OS Main Inv Plan.

Lemma fault_at_none ev n : io_fault ev = None → fault_at ev n = false.
Proof. unfold fault_at. by intros ->. Qed.

(** When [mkdir] raises or the source file does not exist, the iteration
    ends without touching the disk or the byte counter: the file
    installed at the destination, if any, stays as it is. *)
Theorem no_source_leaves_disk_untouched ev e w :
  mkdir_fails ev = true ∨ w_fs w !! e_source e = None →
  failed (snd (process_entry ev e w)) = true
  ∧ Forall (λ x, w_fs x = w_fs w
                 ∧ downloaded_bytes (w_dl x) = downloaded_bytes (w_dl w))
           (fst (fst (process_entry ev e w)))
  ∧ w_fs (snd (fst (process_entry ev e w))) = w_fs w.
Proof.
  intros H. unfold process_entry. cbn [w_fs w_dl].
  destruct (mkdir_fails ev) eqn:Hmk.
  - cbn. split; [done|]. split; [|done]. by repeat constructor.
  - destruct H as [?|Hsrc]; [discriminate|]. unfold exists_.
    rewrite !Hsrc.
    cbn. split; [done|]. split; [|done]. by repeat constructor.
Qed.


Lemma chunks_of_nonempty n (data : list byte) :
  data ≠ [] → ∃ c cs, chunks_of (length data) n data = c :: cs.
Proof. destruct data as [|b data]; [done|]. intros _. cbn. eauto. Qed.

(** The first chunk of a copy, when the total expected is zero. *)
Lemma copy_chunks_zero_total ev dst total k c cs dl w :
  io_fault ev = None → total_size_bytes (w_dl w) = 0 →
  snd (copy_chunks ev dst total k (c :: cs) dl w)
  = Some Py.ZeroDivisionError.
Proof.
  intros Hio Hz. cbn [copy_chunks]. rewrite (fault_at_none ev _ Hio).
  cbn [total_size_bytes set_downloaded_bytes]. rewrite Hz.
  by rewrite orb_true_r.
Qed.

Lemma process_entry_zero_total ev e w :
  untroubled ev → has_bytes (w_fs w) e →
  e_source e ≠ e_destination e →
  total_size_bytes (w_dl w) = 0 →
  snd (process_entry ev e w) = CopyFailed Py.ZeroDivisionError.
Proof.
  intros [Hmk Hio] (sf & Hsrc & Hr & Hdata) Hne Hz.
  destruct (process_entry ev e w) as [[tr w'] o] eqn:Hpe. cbn [fst snd].
  revert Hpe. unfold process_entry. cbn [w_fs w_dl].
  rewrite Hmk. unfold exists_ at 1. rewrite Hsrc. cbn [negb].
  unfold getsize. rewrite Hsrc. unfold copy_file, open_rb. cbn [w_fs w_dl].
  rewrite Hsrc, (readable_access sf Hr), (fault_at_none ev _ Hio).
  cbn [r_raises]. unfold open_wb. rewrite lookup_insert_ne by done. rewrite Hsrc.
  destruct (chunks_of_nonempty chunk_size (f_data sf) Hdata) as (c & cs & ->).
  match goal with |- context [copy_chunks ev ?dst ?t ?k (c :: cs) ?dl ?w1] =>
    pose proof (copy_chunks_zero_total ev dst t k c cs dl w1 Hio Hz) as Hc;
    destruct (copy_chunks ev dst t k (c :: cs) dl w1) as [[tr1 wf1] res1]
  end.
  cbn [snd] in Hc. subst res1. by intros [= <- <- <-].
Qed.

(** The outcomes of the loop, by induction over it. *)
Lemma queue_loop_outcomes (I : list entry → world → Prop)
    (Q : entry → outcome → Prop) os :
  (∀ i e q w, I (e :: q) w →
     Q e (snd (process_entry (os i) e
                 (mkWorld (w_fs w) (set_download_queue q (w_dl w)))))) →
  (∀ e q w x, I (e :: q) w →
     during (mkWorld (w_fs w) (set_download_queue q (w_dl w))) e x → I q x) →
  ∀ q i w tr log wf,
    I q w → queue_loop os i q w = (tr, log, wf) →
    Forall (λ eo, Q (fst eo) (snd eo)) log.
Proof.
  intros Hout Hnext.
  induction q as [|e q IH]; intros i w tr log wf HI; cbn [queue_loop].
  - intros [= <- <- <-]. constructor.
  - pose proof (Hout i e q w HI) as Hq.
    destruct (process_entry (os i) e _) as [[tr1 w1] o] eqn:Hentry.
    destruct (queue_loop os (S i) q w1) as [[tr2 log2] wf2] eqn:Hloop.
    intros [= <- <- <-].
    destruct (process_entry_during _ _ _ _ _ _ Hentry) as (_ & Hw1 & _).
    apply Forall_cons_2; [exact Hq|].
    eapply (IH (S i) w1); [|exact Hloop]. by eapply Hnext.
Qed.

(** When the sizes queued add up to zero, as they do for a manifest
    whose records carry no size, no file can be installed: with the
    operating system untroubled, every queued copy of a non-empty
    readable source ends in the division by the zero total, in the
    handler of the copy error. *)
Theorem zero_total_fails_every_copy os w :
  let q := download_queue (w_dl w) in
  sum_sizes q = 0 →
  (∀ i, untroubled (os i)) →
  Forall (has_bytes (w_fs w)) q →
  (∀ e e', e ∈ q → e' ∈ q → e_source e ≠ e_destination e') →
  Forall (λ eo, snd eo = CopyFailed Py.ZeroDivisionError)
         (r_log (process_queue os w)).
Proof.
  cbn zeta. intros Hsum Hos Hsrc Hdisj. unfold process_queue.
  cbn [w_fs w_dl download_queue set_downloaded_bytes set_total_size_bytes].
  set (w0 := mkWorld (w_fs w) _).
  destruct (queue_loop os 0 _ w0) as [[tr log] wf] eqn:Hloop. cbn [r_log].
  pose (I := λ (q : list entry) (x : world),
          (∀ e, e ∈ q → e ∈ download_queue (w_dl w))
          ∧ Forall (has_bytes (w_fs x)) q
          ∧ total_size_bytes (w_dl x) = 0).
  apply (queue_loop_outcomes I
           (λ _ o, o = CopyFailed Py.ZeroDivisionError) os)
    with (q := download_queue (w_dl w)) (i := 0%nat) (w := w0) (tr := tr)
         (wf := wf); [| | |exact Hloop].
  - intros i e q x (Hin & Hb & Hz). apply Forall_cons in Hb as [Hbe _].
    apply process_entry_zero_total; [apply Hos|exact Hbe| |exact Hz].
    apply Hdisj; apply Hin; by left.
  - intros e q x y (Hin & Hb & Hz) (Hk & Hfr & _).
    apply Forall_cons in Hb as [_ Hb].
    destruct Hk as (_ & _ & _ & _ & _ & _ & _ & Htot & _). cbn in Htot, Hfr.
    split; [|split].
    + intros e' He'. apply Hin. by right.
    + rewrite Forall_forall in Hb. apply Forall_forall. intros e' He'.
      destruct (Hb e' He') as (sf & Hs & Hr & Hd). exists sf.
      split; [|done]. rewrite Hfr; [done|].
      apply Hdisj; apply Hin; [by right|by left].
    + by rewrite Htot.
  - split; [done|]. split; [exact Hsrc|]. subst w0. cbn. exact Hsum.
Qed.

Lemma copy_chunks_runs ev dst total chunks : ∀ k dl w,
  io_fault ev = None → (chunks ≠ [] → total ≠ 0) →
  total_size_bytes (w_dl w) ≠ 0 →
  snd (copy_chunks ev dst total k chunks dl w) = None.
Proof.
  induction chunks as [|c chunks IH]; intros k dl w Hio Ht Hz; [done|].
  cbn [copy_chunks]. rewrite (fault_at_none ev _ Hio).
  cbn [total_size_bytes set_downloaded_bytes].
  assert (Ht' : total ≠ 0) by (by apply Ht).
  apply Z.eqb_neq in Ht', Hz. rewrite Ht', Hz. cbn [orb].
  match goal with |- context [copy_chunks ev dst total (S k) chunks ?dl' ?w2] =>
    pose proof (IH (S k) dl' w2 Hio) as Hrec;
    destruct (copy_chunks ev dst total (S k) chunks dl' w2)
      as [[tr' wf'] res']
  end.
  cbn [snd] in *. apply Hrec; [intros _; by apply Z.eqb_neq|].
  cbn. by apply Z.eqb_neq.
Qed.

(** The copy of a readable source, with nothing going wrong: the whole
    of it is at the destination and in the byte counter. *)
Lemma copy_file_complete ev e w sf :
  io_fault ev = None →
  w_fs w !! e_source e = Some sf → f_readable sf = true →
  e_source e ≠ e_destination e →
  total_size_bytes (w_dl w) ≠ 0 →
  ∃ tr wf,
    copy_file ev (e_source e) (e_destination e)
      (Z.of_nat (length (f_data sf))) w = (tr, wf, None)
    ∧ kept (w_dl w) (w_dl wf)
    ∧ w_fs wf
      = <[e_destination e := mkFile (f_data sf) (now ev) true]> (w_fs w)
    ∧ downloaded_bytes (w_dl wf)
      = downloaded_bytes (w_dl w) + Z.of_nat (length (f_data sf)).
Proof.
  intros Hio Hsrc Hr Hne Hz. unfold copy_file, open_rb.
  rewrite (fault_at_none ev _ Hio), Hsrc, (readable_access sf Hr).
  cbn [w_fs w_dl r_raises].
  assert (Hsrc1 : open_wb (now ev) (e_destination e) (w_fs w) !! e_source e
                  = Some sf).
  { unfold open_wb. by rewrite lookup_insert_ne. }
  rewrite !Hsrc1.
  set (w1 := mkWorld (open_wb (now ev) (e_destination e) (w_fs w)) (w_dl w)).
  set (chunks := chunks_of (length (f_data sf)) chunk_size (f_data sf)).
  assert (Hcat : concat chunks = f_data sf).
  { subst chunks. apply concat_chunks; [unfold chunk_size; lia|done]. }
  pose proof (copy_chunks_runs ev (e_destination e)
                (Z.of_nat (length (f_data sf))) chunks 0 0 w1 Hio) as Hrun.
  destruct (copy_chunks ev (e_destination e) (Z.of_nat (length (f_data sf)))
              0 chunks 0 w1) as [[tr wf] res] eqn:Hcopy.
  cbn [snd] in Hrun.
  assert (Hres : res = None).
  { apply Hrun; [|exact Hz]. intros Hc Hl. apply Hc. subst chunks.
    destruct (f_data sf); [done|]. cbn in Hl. lia. }
  subst res.
  assert (Hdst : w_fs w1 !! e_destination e = Some (mkFile [] (now ev) true))
    by apply lookup_insert_eq.
  destruct (copy_chunks_copying _ _ _ _ _ _ _ _ _ Hdst _ _ _ Hcopy)
    as (_ & pre & _ & (Hk & Hfs & Hd) & Hall).
  rewrite (Hall eq_refl), Hcat in Hfs, Hd.
  eexists _, _. split; [reflexivity|]. split; [exact Hk|]. split.
  - rewrite Hfs. subst w1. unfold open_wb. cbn. by rewrite insert_insert_eq.
  - rewrite Hd. done.
Qed.

Lemma fingerprint_of_copy sf stamp :
  stamp = f_mtime sf →
  Spec.fingerprint (mkFile (f_data sf) stamp true) = Spec.fingerprint sf.
Proof.
  intros ->. unfold Spec.fingerprint. cbn [f_data f_mtime]. reflexivity.
Qed.

(** A copy is installed when it carries the time stamp of its source.
    With the operating system untroubled and a total expected that is
    not zero, the copy of a readable source whose fingerprint is the hash
    of the first record with the file's path, written at a time that
    prints as the source's own, reaches the bottom of the loop: the
    destination then holds the bytes and the stamp of the source, and
    the byte counter has grown by the length of the file. *)
Theorem copy_with_source_stamp_is_installed ev e w sf p rs r :
  untroubled ev →
  w_fs w !! e_source e = Some sf → f_readable sf = true →
  e_source e ≠ e_destination e →
  total_size_bytes (w_dl w) ≠ 0 →
  manifest (w_dl w) = FilesReport.report (map to_record rs) →
  e_destination e = join (download_folder (w_dl w)) p →
  first_with_path p rs = Some r →
  snd (fst r) = Spec.fingerprint sf →
  now ev = f_mtime sf →
  snd (process_entry ev e w) = Installed
  ∧ w_fs (snd (fst (process_entry ev e w)))
    = <[e_destination e := mkFile (f_data sf) (f_mtime sf) true]> (w_fs w)
  ∧ downloaded_bytes (w_dl (snd (fst (process_entry ev e w))))
    = downloaded_bytes (w_dl w) + Z.of_nat (length (f_data sf)).
Proof.
  intros [Hmk Hio] Hsrc Hr Hne Hz Hm Hdst Hfirst Hhash Hnow.
  destruct (process_entry ev e w) as [[tr w'] o] eqn:Hpe. cbn [fst snd].
  revert Hpe. unfold process_entry. cbn [w_fs w_dl].
  rewrite Hmk. unfold exists_ at 1. rewrite Hsrc. cbn [negb].
  unfold getsize. rewrite Hsrc.
  set (d1 := set_total_status_text _ _).
  destruct (copy_file_complete ev e (mkWorld (w_fs w) d1) sf Hio Hsrc Hr Hne)
    as (trc & wc & -> & Hk & Hfs & Hd); [subst d1; cbn; exact Hz|].
  cbn [w_fs w_dl] in Hk, Hfs, Hd.
  assert (Hk1 : kept (w_dl w) (w_dl wc)).
  { eapply kept_trans; [|exact Hk]. subst d1. unfold kept. cbn.
    by repeat split. }
  destruct Hk1 as (_ & Hman & _ & _ & Hfolder & _).
  assert (Hver : verify (e_destination e) wc = None).
  { rewrite Hdst, <- Hfolder.
    apply (verify_first_record wc (download_folder (w_dl wc)) p rs);
      [by rewrite Hman|done|].
    exists r. split; [exact Hfirst|]. rewrite Hhash, Hfolder, <- Hdst.
    rewrite (calculate_fast_hash_readable (w_fs wc) (e_destination e)
               (mkFile (f_data sf) (now ev) true));
      [|rewrite Hfs; apply lookup_insert_eq|done].
    symmetry. by apply fingerprint_of_copy. }
  rewrite Hver. intros [= <- <- <-].
  split; [done|]. split; [by rewrite Hfs, Hnow|].
  rewrite Hd. subst d1. cbn. done.
Qed.

(** What the engine installs, its next check finds current. When an
    iteration of the queue loop reaches its bottom for the file of path
    [p], the manifest has a record with that path, and one iteration of
    [check_files] on the first such record, against the disk the loop
    leaves, shows the file as in order and does not put it on the
    download list. *)
Theorem installed_file_passes_the_next_check ev e w p rs :
  manifest (w_dl w) = FilesReport.report (map to_record rs) →
  e_destination e = join (download_folder (w_dl w)) p →
  e_source e ≠ e_destination e →
  snd (process_entry ev e w) = Installed →
  let fs' := w_fs (snd (fst (process_entry ev e w))) in
  ∃ r, first_with_path p rs = Some r
    ∧ fst (fst r) = p
    ∧ ∀ d, download_folder d = download_folder (w_dl w) →
        ∃ d', check_one fs' (to_record r) d = (d', None)
          ∧ status_text d' = StOK (name (e_destination e))
          ∧ files_to_download d' = files_to_download d.
Proof.
  intros Hm Hdst Hne. destruct (process_entry ev e w) as [[tr w'] o] eqn:Hpe.
  cbn [fst snd]. intros ->.
  destruct (process_entry_during _ _ _ _ _ _ Hpe)
    as (_ & (Hkept & _) & Hver & Hfile).
  specialize (Hfile Hne).
  set (f := mkFile _ _ true) in Hfile.
  assert (Hr : f_readable f = true) by reflexivity. clearbody f.
  destruct Hkept as (_ & Hman & _ & _ & Hfold & _).
  rewrite Hdst in Hver.
  apply (verify_first_record w' (download_folder (w_dl w)) p rs) in Hver;
    [|by rewrite Hman|exact Hfold].
  destruct Hver as (r & Hfirst & Hhash). exists r. split; [exact Hfirst|].
  assert (Hpath : fst (fst r) = p).
  { unfold first_with_path in Hfirst. apply find_some in Hfirst as [_ Heq].
    by apply String.eqb_eq in Heq. }
  split; [exact Hpath|]. intros d Hd.
  rewrite <- Hdst in Hhash.
  rewrite (calculate_fast_hash_readable _ _ _ Hfile Hr) in Hhash.
  assert (Herr : snd (fst r) ≠ "error"%string).
  { rewrite Hhash. apply fingerprint_not_error. }
  destruct (check_one_plan (w_fs w') r d Herr) as (d' & Hone & Hst & Hfiles & _).
  assert (Hplan : planned (w_fs w') (download_folder d) r = Skip).
  { unfold planned, plan_one. rewrite Hd, Hpath, <- Hdst, Hfile, Hr, Hhash.
    rewrite String.eqb_refl. exact eq_refl. }
  rewrite Hplan in Hst, Hfiles. cbn [shown_as fetches] in Hst, Hfiles.
  rewrite app_nil_r in Hfiles. rewrite Hd, Hpath, <- Hdst in Hst.
  exists d'. split; [exact Hone|]. split; [exact Hst|exact Hfiles].
Qed.

End Endings.

(** * The further properties on concrete disks *)

Section FurtherExamples.
Import OS Hashlib FilesReport Main Inv Plan Scenario.

Lemma error_text_means_unreadable_witness :
  ((open_rb disk_read_raises "dl/a" ≠ None
    ∧ readable_at disk_read_raises "dl/a" = false)
   ∧ Main.calculate_fast_hash disk_read_raises "dl/a" = "error"%string)
  ∧ (Main.calculate_fast_hash disk "src/a" ≠ "error"%string
     ∧ String.length (Main.calculate_fast_hash disk "src/a") = 64%nat
     ∧ Forall Blake2b.hex_char
         (list_ascii_of_string (Main.calculate_fast_hash disk "src/a"))).
Proof.
  assert (H1 : open_rb disk_read_raises "dl/a" ≠ None)
    by (vm_compute; discriminate).
  assert (H2 : readable_at disk_read_raises "dl/a" = false)
    by (vm_compute; reflexivity).
  assert (H3 : Main.calculate_fast_hash disk "src/a" ≠ "error"%string)
    by (vm_compute; discriminate).
  split.
  - split; [exact (conj H1 H2)|].
    apply (proj1 (error_text_means_unreadable disk_read_raises "dl/a")).
    apply (proj1 (proj2 (error_text_means_unreadable disk_read_raises "dl/a"))).
    exact H2.
  - split; [exact H3|].
    exact (proj2 (proj2 (error_text_means_unreadable disk "src/a")) H3).
Defined.

Lemma fingerprint_ignores_unsampled_bytes_witness :
  let f1 := mid_file "x"%byte in
  let f2 := mid_file "y"%byte in
  (length (f_data f1) = length (f_data f2)
   ∧ f_mtime f1 = f_mtime f2
   ∧ take head_len (f_data f1) = take head_len (f_data f2)
   ∧ f_data f1 ≠ f_data f2)
  ∧ Main.calculate_fast_hash {["f" := f1]} "f"
    = Main.calculate_fast_hash {["f" := f2]} "f".
Proof.
  pose proof head_len_val as Hh.
  assert (Hlen : ∀ c, length (f_data (mid_file c)) = S head_len).
  { intros c. cbn. rewrite length_app, length_replicate. cbn. lia. }
  assert (Htake : ∀ c, take head_len (f_data (mid_file c))
                       = replicate head_len "a"%byte).
  { intros c. cbn [mid_file f_data]. apply take_app_length'.
    by rewrite length_replicate. }
  cbn zeta.
  assert (H1 : length (f_data (mid_file "x")) = length (f_data (mid_file "y")))
    by (rewrite !Hlen; reflexivity).
  assert (H2 : f_mtime (mid_file "x") = f_mtime (mid_file "y")) by reflexivity.
  assert (H3 : take head_len (f_data (mid_file "x"))
               = take head_len (f_data (mid_file "y")))
    by (rewrite !Htake; reflexivity).
  assert (H4 : f_data (mid_file "x") ≠ f_data (mid_file "y")).
  { cbn [mid_file f_data]. intros Heq. apply app_inv_head in Heq.
    discriminate. }
  split; [exact (conj H1 (conj H2 (conj H3 H4)))|].
  apply (fingerprint_ignores_unsampled_bytes
           {["f" := mid_file "x"]} {["f" := mid_file "y"]} "f" "f"
           (mid_file "x") (mid_file "y"));
    [apply lookup_singleton_eq|reflexivity|apply lookup_singleton_eq
    |reflexivity|exact H1|exact H2|exact H3|].
  rewrite Hlen. lia.
Defined.

Lemma report_is_consistent_witness :
  generate_directory_report scan_src disk "src"
  = Some (report_src, statistics_src)
  ∧ ∃ rs, report_src = report (map to_record rs)
      ∧ Forall (describes disk "src") rs
      ∧ st_total_files statistics_src = Z.of_nat (length rs)
      ∧ st_total_size statistics_src = sizes rs
      ∧ (st_overall_hash statistics_src = ""%string ↔ rs = []).
Proof.
  assert (H : generate_directory_report scan_src disk "src"
              = Some (report_src, statistics_src)) by reflexivity.
  split; [exact H|].
  exact (report_is_consistent scan_src disk "src" report_src statistics_src H).
Defined.

Lemma generated_manifest_finds_directory_current_witness :
  let d := init "elsewhere" "src" in
  let ck := check_files (Some report_src) disk d in
  (generate_directory_report scan_src disk "src"
   = Some (report_src, statistics_src)
   ∧ download_folder d = "src"%string)
  ∧ c_value ck = inr []
  ∧ (st_total_files statistics_src ≠ 0 →
     Z.of_nat (length (c_shown ck)) = st_total_files statistics_src
     ∧ Forall is_ok (c_shown ck)).
Proof.
  cbn zeta.
  assert (H1 : generate_directory_report scan_src disk "src"
               = Some (report_src, statistics_src)) by reflexivity.
  assert (H2 : download_folder (init "elsewhere" "src") = "src"%string)
    by reflexivity.
  split; [exact (conj H1 H2)|].
  exact (generated_manifest_finds_directory_current scan_src disk "src"
           report_src statistics_src (init "elsewhere" "src") H1 H2).
Defined.

Lemma generated_manifest_is_planned_as_specified_witness :
  generate_directory_report scan_src disk "src"
  = Some (report_src, statistics_src)
  ∧ ∃ rs, report_src = report (map to_record rs)
      ∧ ∀ (fs : gmap string file) d, rs ≠ [] →
          let root := download_folder d in
          let ck := check_files (Some report_src) fs d in
          c_value ck
          = inr (map to_record
                   (List.filter (λ r, fetches (planned fs root r)) rs))
          ∧ c_shown ck
            = map (λ r, shown_as (planned fs root r)
                          (name (join root (fst (fst r))))) rs.
Proof.
  assert (H : generate_directory_report scan_src disk "src"
              = Some (report_src, statistics_src)) by reflexivity.
  split; [exact H|].
  exact (generated_manifest_is_planned_as_specified scan_src disk "src"
           report_src statistics_src H).
Defined.

Lemma report_lists_the_readable_files_witness :
  (generate_directory_report scan_mixed disk_mixed "src"
   = Some (report_mixed, statistics_mixed)
   ∧ open_rb disk_mixed "src/b" ≠ None
   ∧ List.filter (λ p, readable_at disk_mixed (join "src" p))
       (walked scan_mixed) = ["a"%string])
  ∧ ∃ rs, report_mixed = report (map to_record rs)
      ∧ map (λ r, fst (fst r)) rs
        = List.filter (λ p, readable_at disk_mixed (join "src" p))
            (walked scan_mixed).
Proof.
  assert (H1 : generate_directory_report scan_mixed disk_mixed "src"
               = Some (report_mixed, statistics_mixed)) by reflexivity.
  assert (H2 : open_rb disk_mixed "src/b" ≠ None)
    by (vm_compute; discriminate).
  assert (H3 : List.filter (λ p, readable_at disk_mixed (join "src" p))
                 (walked scan_mixed) = ["a"%string])
    by (vm_compute; reflexivity).
  split; [exact (conj H1 (conj H2 H3))|].
  exact (report_lists_the_readable_files scan_mixed disk_mixed "src"
           report_mixed statistics_mixed H1).
Defined.




Lemma download_is_checked_against_first_record_witness :
  (manifest (w_dl started_a) = report (map to_record records_a)
   ∧ download_folder (w_dl started_a) = "dl"%string)
  ∧ (verify (join "dl" "a") started_a = None
     ↔ ∃ r, first_with_path "a" records_a = Some r
            ∧ snd (fst r)
              = Main.calculate_fast_hash (w_fs started_a) (join "dl" "a")).
Proof.
  assert (H1 : manifest (w_dl started_a) = report (map to_record records_a))
    by reflexivity.
  assert (H2 : download_folder (w_dl started_a) = "dl"%string) by reflexivity.
  split; [exact (conj H1 H2)|].
  exact (download_is_checked_against_first_record started_a "dl" "a"
           records_a H1 H2).
Defined.

Lemma no_source_leaves_disk_untouched_witness :
  let ev := calm "1.5" 0 in
  let w := mkWorld (delete "src/a" disk) fresh in
  w_fs w !! e_source entry_a = None
  ∧ failed (snd (process_entry ev entry_a w)) = true
  ∧ Forall (λ x, w_fs x = w_fs w
                 ∧ downloaded_bytes (w_dl x) = downloaded_bytes (w_dl w))
           (fst (fst (process_entry ev entry_a w)))
  ∧ w_fs (snd (fst (process_entry ev entry_a w))) = w_fs w.
Proof.
  cbn zeta.
  assert (H : w_fs (mkWorld (delete "src/a" disk) fresh) !! e_source entry_a
              = None) by (vm_compute; reflexivity).
  split; [exact H|].
  exact (no_source_leaves_disk_untouched (calm "1.5" 0) entry_a
           (mkWorld (delete "src/a" disk) fresh) (or_intror H)).
Defined.


Lemma zero_total_fails_every_copy_witness :
  let q := download_queue (w_dl queued_zero) in
  (sum_sizes q = 0
   ∧ (∀ i, untroubled (calm "1.5" i))
   ∧ Forall (has_bytes (w_fs queued_zero)) q
   ∧ (∀ e e', e ∈ q → e' ∈ q → e_source e ≠ e_destination e'))
  ∧ Forall (λ eo, snd eo = CopyFailed Py.ZeroDivisionError)
           (r_log (process_queue (calm "1.5") queued_zero)).
Proof.
  cbn zeta.
  assert (H1 : sum_sizes (download_queue (w_dl queued_zero)) = 0)
    by reflexivity.
  assert (H2 : ∀ i, untroubled (calm "1.5" i))
    by (intros i; split; reflexivity).
  assert (H3 : Forall (has_bytes (w_fs queued_zero))
                 (download_queue (w_dl queued_zero))).
  { apply Forall_cons_2; [|apply Forall_nil_2]. exists file_new.
    split; [vm_compute; reflexivity|]. split; [reflexivity|discriminate]. }
  assert (H4 : ∀ e e', e ∈ download_queue (w_dl queued_zero) →
                 e' ∈ download_queue (w_dl queued_zero) →
                 e_source e ≠ e_destination e').
  { intros e e' He He'. apply list_elem_of_singleton in He, He'.
    subst e e'. vm_compute. discriminate. }
  split; [exact (conj H1 (conj H2 (conj H3 H4)))|].
  exact (zero_total_fails_every_copy (calm "1.5") queued_zero H1 H2 H3 H4).
Defined.

Lemma copy_with_source_stamp_is_installed_witness :
  let ev := calm "1.5" 0 in
  let r := ("a"%string, FilesReport.calculate_fast_hash disk "src/a", 3) in
  (untroubled ev
   ∧ w_fs started_a !! e_source entry_a = Some file_new
   ∧ total_size_bytes (w_dl started_a) ≠ 0
   ∧ first_with_path "a" records_a = Some r
   ∧ snd (fst r) = Spec.fingerprint file_new
   ∧ now ev = f_mtime file_new)
  ∧ snd (process_entry ev entry_a started_a) = Installed
  ∧ w_fs (snd (fst (process_entry ev entry_a started_a)))
    = <[e_destination entry_a
        := mkFile (f_data file_new) (f_mtime file_new) true]> (w_fs started_a)
  ∧ downloaded_bytes (w_dl (snd (fst (process_entry ev entry_a started_a))))
    = downloaded_bytes (w_dl started_a) + Z.of_nat (length (f_data file_new)).
Proof.
  cbn zeta.
  assert (H1 : untroubled (calm "1.5" 0)) by (split; reflexivity).
  assert (H2 : w_fs started_a !! e_source entry_a = Some file_new)
    by reflexivity.
  assert (H3 : f_readable file_new = true) by reflexivity.
  assert (H4 : e_source entry_a ≠ e_destination entry_a)
    by (vm_compute; discriminate).
  assert (H5 : total_size_bytes (w_dl started_a) ≠ 0) by discriminate.
  assert (H6 : manifest (w_dl started_a) = report (map to_record records_a))
    by reflexivity.
  assert (H7 : e_destination entry_a
               = join (download_folder (w_dl started_a)) "a") by reflexivity.
  assert (H8 : first_with_path "a" records_a
               = Some ("a"%string,
                       FilesReport.calculate_fast_hash disk "src/a", 3))
    by reflexivity.
  assert (H9 : snd (fst ("a"%string,
                         FilesReport.calculate_fast_hash disk "src/a", 3))
               = Spec.fingerprint file_new)
    by (vm_compute; reflexivity).
  assert (H10 : now (calm "1.5" 0) = f_mtime file_new) by reflexivity.
  split; [exact (conj H1 (conj H2 (conj H5 (conj H8 (conj H9 H10)))))|].
  exact (copy_with_source_stamp_is_installed (calm "1.5" 0) entry_a started_a
           file_new "a" records_a
           ("a"%string, FilesReport.calculate_fast_hash disk "src/a", 3)
           H1 H2 H3 H4 H5 H6 H7 H8 H9 H10).
Defined.

Lemma installed_file_passes_the_next_check_witness :
  let ev := calm "1.5" 0 in
  let fs' := w_fs (snd (fst (process_entry ev entry_a started_a))) in
  (manifest (w_dl started_a) = report (map to_record records_a)
   ∧ e_source entry_a ≠ e_destination entry_a
   ∧ snd (process_entry ev entry_a started_a) = Installed)
  ∧ ∃ r, first_with_path "a" records_a = Some r
      ∧ fst (fst r) = "a"%string
      ∧ ∀ d, download_folder d = download_folder (w_dl started_a) →
          ∃ d', check_one fs' (to_record r) d = (d', None)
            ∧ status_text d' = StOK (name (e_destination entry_a))
            ∧ files_to_download d' = files_to_download d.
Proof.
  cbn zeta.
  assert (H1 : manifest (w_dl started_a) = report (map to_record records_a))
    by reflexivity.
  assert (H2 : e_destination entry_a
               = join (download_folder (w_dl started_a)) "a") by reflexivity.
  assert (H3 : e_source entry_a ≠ e_destination entry_a)
    by (vm_compute; discriminate).
  assert (H4 : snd (process_entry (calm "1.5" 0) entry_a started_a)
               = Installed) by (vm_compute; reflexivity).
  split; [exact (conj H1 (conj H3 H4))|].
  exact (installed_file_passes_the_next_check (calm "1.5" 0) entry_a started_a
           "a" records_a H1 H2 H3 H4).
Defined.

End FurtherExamples.
